(** * The query service of the invoicing dashboard ([app/lib/data.ts])

    A shallow embedding of the eight read operations of [app/lib/data.ts]
    and of the part of PostgreSQL they rely on: [ILIKE] patterns, [JOIN],
    [LEFT JOIN], [GROUP BY], [ORDER BY], [LIMIT]/[OFFSET], [COUNT] and [SUM].

    Conventions of the model.
    - A table is a list of rows.  The order in which the engine enumerates
      the rows of a statement is not fixed by SQL: every execution of a
      statement carries its own enumeration ([arrange], a permutation).
      [ORDER BY] sorts that enumeration and keeps it among rows that tie.
    - An execution may fault ([fault]); the promise returned by [sql] is
      then rejected and the [await] throws inside the [try] block.
    - [console.error] appends to an explicit console log.
    - Columns are [NOT NULL]; [NULL] only arises from [SUM] over no row and
      from the invoice side of a [LEFT JOIN], and is written [None].
    - Text is a string of bytes.  [ILIKE] folds the ASCII letters and
      reads one byte as one character; this is the engine's reading of
      ASCII text, and the theorems that read the search as a substring
      match carry the condition that the text is ASCII.
    - [ORDER BY] on a text column follows the collation of the database,
      a field of [Database].
    - Page numbers and amounts are integers.  The count divided by the
      page size is an exact rational, which [Math.ceil] reads as the
      double does for counts below 2^53; the amount divided by 100 is
      the IEEE-754 binary64 quotient.
    - [formatCurrency] lives in [./utils]; the operations take it as a
      parameter. *)

From Stdlib Require Import List String Ascii Bool Arith ZArith NArith QArith Qround Lia.
From Stdlib Require Import Permutation Sorted DecimalString SpecFloat.
Import ListNotations.

Local Open Scope list_scope.
Local Open Scope Z_scope.

(* ------------------------------------------------------------------ *)
(** ** Text *)

Definition chars (s : string) : list ascii := list_ascii_of_string s.

(** Case folding of the letters A to Z, as [ILIKE] applies it to both
    sides of ASCII text. *)
Definition to_lower (c : ascii) : ascii :=
  let n := N_of_ascii c in
  if ((65 <=? n) && (n <=? 90))%N then ascii_of_N (n + 32) else c.

Definition lower (l : list ascii) : list ascii := map to_lower l.

(** The three characters a [LIKE] pattern reads specially. *)
Definition is_meta (c : ascii) : bool :=
  (c =? "%")%char || (c =? "_")%char || (c =? "\")%char.

Definition plain (q : list ascii) : bool := forallb (fun c => negb (is_meta c)) q.

(** [Substring q s]: [q] occurs in [s] as a contiguous block. *)
Definition Substring (q s : list ascii) : Prop :=
  exists pre post, s = pre ++ q ++ post.

Fixpoint starts_with (q s : list ascii) : bool :=
  match q, s with
  | [], _ => true
  | _ :: _, [] => false
  | c :: q', a :: s' => (a =? c)%char && starts_with q' s'
  end.

Fixpoint substringb (q s : list ascii) : bool :=
  starts_with q s || match s with [] => false | _ :: s' => substringb q s' end.

(** Case-insensitive occurrence of the text [q] in the text [s]. *)
Definition ci_substring (q s : string) : Prop :=
  Substring (lower (chars q)) (lower (chars s)).

(* ------------------------------------------------------------------ *)
(** ** PostgreSQL: pattern matching *)

(** [s LIKE p]: [%] matches any run of characters, [_] any one character,
    a backslash makes the next pattern character literal.  PostgreSQL
    raises an error on a pattern that ends in a lone backslash; [like]
    answers [false] there and [like_wf] tells such patterns apart. *)
Fixpoint like (p s : list ascii) {struct p} : bool :=
  match p with
  | [] => match s with [] => true | _ :: _ => false end
  | c :: p' =>
      if (c =? "%")%char then
        (fix any (t : list ascii) : bool :=
           like p' t || match t with [] => false | _ :: t' => any t' end) s
      else if (c =? "_")%char then
        match s with [] => false | _ :: s' => like p' s' end
      else if (c =? "\")%char then
        match p' with
        | [] => false
        | e :: p'' =>
            match s with [] => false | a :: s' => (a =? e)%char && like p'' s' end
        end
      else
        match s with [] => false | a :: s' => (a =? c)%char && like p' s' end
  end.

Fixpoint like_wf (p : list ascii) : bool :=
  match p with
  | [] => true
  | c :: p' =>
      if (c =? "\")%char then
        match p' with [] => false | _ :: p'' => like_wf p'' end
      else like_wf p'
  end.

(** [s ILIKE p]. *)
Definition ILIKE (s p : string) : bool := like (lower (chars p)) (lower (chars s)).

(** The template literal [`%${query}%`]. *)
Definition pattern_of (query : string) : string :=
  String "%" (query ++ String "%" EmptyString)%string.

(* ------------------------------------------------------------------ *)
(** ** The schema *)

(** A [DATE]; [date_text] is its cast to text, [YYYY-MM-DD]. *)
Record Date : Type := mkDate { year : nat; month_of : nat; day : nat }.

Definition date_leb (a b : Date) : bool :=
  (if year a =? year b then
     if month_of a =? month_of b then day a <=? day b
     else month_of a <? month_of b
   else year a <? year b)%nat.

Definition digits (n : nat) : string := NilZero.string_of_uint (Nat.to_uint n).

Fixpoint zeros (k : nat) : string :=
  match k with O => EmptyString | S k' => String "0" (zeros k') end.

Definition pad (width n : nat) : string :=
  (zeros (width - String.length (digits n)) ++ digits n)%string.

Definition date_text (d : Date) : string :=
  (pad 4 (year d) ++ "-" ++ pad 2 (month_of d) ++ "-" ++ pad 2 (day d))%string.

(** An [INT] cast to text. *)
Definition int_text (z : Z) : string := NilZero.string_of_int (Z.to_int z).

Module invoices.
Record row : Type := mk
  { id : string; customer_id : string; amount : Z; status : string; date : Date }.
End invoices.

Module customers.
Record row : Type := mk
  { id : string; name : string; email : string; image_url : string }.

Definition eqb (a b : row) : bool :=
  (id a =? id b)%string && (name a =? name b)%string
  && (email a =? email b)%string && (image_url a =? image_url b)%string.
End customers.

Module revenue.
Record row : Type := mk { month : string; revenue : Z }.
End revenue.

(** The three tables, and the collation of the database: [collation a b]
    says that the text [a] sorts no later than the text [b]. *)
Record Database : Type := mkDatabase
  { tbl_invoices : list invoices.row;
    tbl_customers : list customers.row;
    tbl_revenue : list revenue.row;
    collation : string -> string -> bool }.

(* ------------------------------------------------------------------ *)
(** ** PostgreSQL: relational operators *)

(** [FROM invoices JOIN customers ON invoices.customer_id = customers.id]. *)
Definition JOIN (inv : list invoices.row) (cus : list customers.row)
  : list (invoices.row * customers.row) :=
  flat_map
    (fun i =>
       map (pair i)
         (filter (fun c => (invoices.customer_id i =? customers.id c)%string) cus))
    inv.

(** [FROM customers LEFT JOIN invoices ON customers.id = invoices.customer_id]:
    a customer without invoice yields one row whose invoice side is [NULL]. *)
Definition LEFT_JOIN (cus : list customers.row) (inv : list invoices.row)
  : list (customers.row * option invoices.row) :=
  flat_map
    (fun c =>
       match filter (fun i => (customers.id c =? invoices.customer_id i)%string) inv with
       | [] => [(c, None)]
       | matched => map (fun i => (c, Some i)) matched
       end)
    cus.

(** [ORDER BY]: a stable sort of the rows in the order the engine
    enumerated them; [leb a b] says that [a] may stand before [b]. *)
Fixpoint insert_by {R : Type} (leb : R -> R -> bool) (r : R) (l : list R) : list R :=
  match l with
  | [] => [r]
  | h :: t => if leb r h then r :: h :: t else h :: insert_by leb r t
  end.

Definition ORDER_BY {R : Type} (leb : R -> R -> bool) (l : list R) : list R :=
  fold_right (insert_by leb) [] l.

Definition OFFSET {R : Type} (n : Z) (l : list R) : list R := skipn (Z.to_nat n) l.
Definition LIMIT {R : Type} (n : Z) (l : list R) : list R := firstn (Z.to_nat n) l.

(** [COUNT( * )] and [COUNT(column)]: the latter skips [NULL]. *)
Definition COUNT {R : Type} (l : list R) : Z := Z.of_nat (List.length l).

Definition COUNT_col {V : Type} (l : list (option V)) : Z :=
  COUNT (filter (fun v => match v with Some _ => true | None => false end) l).

(** [SUM]: [NULL] when no row contributes a value. *)
Fixpoint SUM (l : list (option Z)) : option Z :=
  match l with
  | [] => None
  | None :: t => SUM t
  | Some z :: t => Some (z + match SUM t with Some s => s | None => 0 end)
  end.

(** [GROUP BY]: the distinct keys in order of first appearance, each with
    the rows of its group. *)
Fixpoint distinct {K : Type} (eqb : K -> K -> bool) (l : list K) : list K :=
  match l with
  | [] => []
  | k :: t => k :: filter (fun k' => negb (eqb k' k)) (distinct eqb t)
  end.

Definition GROUP_BY {K R : Type} (eqb : K -> K -> bool) (key : R -> K) (l : list R)
  : list (K * list R) :=
  map (fun k => (k, filter (fun r => eqb (key r) k) l)) (distinct eqb (map key l)).

(* ------------------------------------------------------------------ *)
(** ** JavaScript: completions, the console, [try]/[catch] *)

Definition Error : Type := string.

Inductive completion (A : Type) : Type :=
| Normal (a : A)
| Thrown (e : Error).
Arguments Normal {A} a.
Arguments Thrown {A} e.

(** The calls [console.error(label, error)] made so far, oldest first. *)
Definition Console : Type := list (string * Error).

Definition Async (A : Type) : Type := Console -> completion A * Console.

Definition ret {A : Type} (a : A) : Async A := fun k => (Normal a, k).

Definition throw {A : Type} (e : Error) : Async A := fun k => (Thrown e, k).

Definition bind {A B : Type} (c : Async A) (f : A -> Async B) : Async B :=
  fun k =>
    match c k with
    | (Normal a, k') => f a k'
    | (Thrown e, k') => (Thrown e, k')
    end.

Notation "x <- c ;; f" := (bind c (fun x => f))
  (at level 61, c at next level, right associativity).
Notation "c ;;; f" := (bind c (fun _ => f))
  (at level 61, right associativity).

Definition console_error (label : string) (error : Error) : Async unit :=
  fun k => (Normal tt, k ++ [(label, error)]).

Definition try_catch {A : Type} (body : Async A) (handler : Error -> Async A) : Async A :=
  fun k =>
    match body k with
    | (Normal a, k') => (Normal a, k')
    | (Thrown e, k') => handler e k'
    end.

(** One execution of a statement by the engine: whether it faults, and the
    order in which it enumerates rows that SQL leaves unordered. *)
Record Run : Type := mkRun
  { fault : option Error;
    arrange : forall R : Type, list R -> list R;
    arrange_perm : forall (R : Type) (l : list R), Permutation (arrange R l) l }.

(** A statement: given the enumeration, its rows or an error of its own. *)
Definition Statement (T : Type) : Type :=
  (forall R : Type, list R -> list R) -> completion (list T).

(** [await sql`...`]. *)
Definition sql {T : Type} (x : Run) (stmt : Statement T) : Async (list T) :=
  fun k =>
    match fault x with
    | Some e => (Thrown e, k)
    | None => (stmt (arrange x), k)
    end.

(** [rows[0].column]: reading a column of a missing first row throws. *)
Definition first_row {T : Type} (rows : list T) : Async T :=
  match rows with
  | r :: _ => ret r
  | [] => throw "TypeError: Cannot read properties of undefined"%string
  end.

(** A JavaScript value that is a number or [null]. *)
Definition nullable : Type := option Z.

(** [v ?? d]. *)
Definition nullish (v : nullable) (d : Z) : nullable :=
  match v with Some z => Some z | None => Some d end.

(** [Number(v)]; [Number(null)] is [0]. *)
Definition Number (v : nullable) : Z :=
  match v with Some z => z | None => 0 end.

(** [n / d] on integers that are numbers, and [Math.ceil] of it. *)
Definition js_div (n d : Z) : Q := inject_Z n / inject_Z d.

(** A JavaScript number as the IEEE-754 binary64 value it is: an integer
    read as a number, and the division and product of two numbers,
    rounded to nearest, ties to even. *)
Definition double : Type := spec_float.

Definition double_of_Z (z : Z) : double := binary_normalize 53 1024 z 0 false.

Definition double_div (a b : double) : double := SFdiv 53 1024 a b.

Definition double_mul (a b : double) : double := SFmul 53 1024 a b.

Definition Math_ceil (q : Q) : Z := Qceiling q.

(* ------------------------------------------------------------------ *)
(** ** The shapes the operations return ([definitions.ts]) *)

Module LatestInvoiceRaw.
Record t : Type := mk
  { amount : Z; name : string; image_url : string; email : string; id : string }.
End LatestInvoiceRaw.

Module LatestInvoice.
Record t : Type := mk
  { amount : string; name : string; image_url : string; email : string; id : string }.
End LatestInvoice.

Module CardData.
Record t : Type := mk
  { numberOfInvoices : Z;
    numberOfCustomers : Z;
    totalPaidInvoices : string;
    totalPendingInvoices : string }.
End CardData.

Module InvoicesTable.
Record t : Type := mk
  { id : string; amount : Z; date : Date; status : string;
    name : string; email : string; image_url : string }.
End InvoicesTable.

Module InvoiceFormRow.
Record t : Type := mk
  { id : string; customer_id : string; amount : Z; status : string }.
End InvoiceFormRow.

Module InvoiceForm.
Record t : Type := mk
  { id : string; customer_id : string; amount : double; status : string }.
End InvoiceForm.

Module CustomerField.
Record t : Type := mk { id : string; name : string }.
End CustomerField.

Module CustomersTableType.
Record t : Type := mk
  { id : string; name : string; email : string; image_url : string;
    total_invoices : Z; total_pending : nullable; total_paid : nullable }.
End CustomersTableType.

Module FormattedCustomersTable.
Record t : Type := mk
  { id : string; name : string; email : string; image_url : string;
    total_invoices : Z; total_pending : string; total_paid : string }.
End FormattedCustomersTable.

(** The row [COUNT( * ) AS count] yields, and the row of the two sums of
    [fetchCardData]. *)
Record CountRow : Type := mkCount { count : nullable }.
Record TotalsRow : Type := mkTotals { paid : nullable; pending : nullable }.

(** Modelled from the spec: [formatCurrency] of [./utils], which is not
    among the sources.  The spec gives one value, [150000] formatted as
    the peso sign followed by [1,500.00], and asks that [null] formats as
    zero: minor units, two decimals, thousands grouped by commas.  The
    operations below take the formatter as a parameter; this instance
    serves to run them. *)
Fixpoint group3 (fuel : nat) (n : Z) : string :=
  match fuel with
  | O => int_text n
  | S fuel' =>
      if n <? 1000 then int_text n
      else String.append (group3 fuel' (n / 1000))
             (String.append "," (pad 3 (Z.to_nat (n mod 1000))))
  end.

Definition formatCurrency_peso (amount : nullable) : string :=
  let a := Number amount in
  let sign : string := if a <? 0 then "-"%string else EmptyString in
  let major := group3 (Z.to_nat (Z.abs a)) (Z.abs a / 100) in
  let minor := pad 2 (Z.to_nat (Z.abs a mod 100)) in
  (sign ++ "₱" ++ major ++ "." ++ minor)%string.

(* ------------------------------------------------------------------ *)
(** ** The operations of [data.ts] *)

Definition ITEMS_PER_PAGE : Z := 6.

Definition date_desc {A : Type} (date : A -> Date) (a b : A) : bool :=
  date_leb (date b) (date a).

Definition text_asc {A : Type} (leb : string -> string -> bool)
           (col : A -> string) (a b : A) : bool :=
  leb (col a) (col b).

Section Operations.

Variable formatCurrency : nullable -> string.

(** [SELECT * FROM revenue ORDER BY month ASC] *)
Definition stmt_fetchRevenue (db : Database) : Statement revenue.row :=
  fun scan =>
    Normal (ORDER_BY (text_asc (collation db) revenue.month) (scan _ (tbl_revenue db))).

Definition fetchRevenue (x : Run) (db : Database) : Async (list revenue.row) :=
  try_catch
    (data <- sql x (stmt_fetchRevenue db) ;;
     ret data)
    (fun error =>
       console_error "Database Error (fetchRevenue):" error ;;;
       ret []).

(** [SELECT invoices.amount, customers.name, customers.image_url,
    customers.email, invoices.id FROM invoices JOIN customers ...
    ORDER BY invoices.date DESC LIMIT 5] *)
Definition select_latest (r : invoices.row * customers.row) : LatestInvoiceRaw.t :=
  let (i, c) := r in
  LatestInvoiceRaw.mk (invoices.amount i) (customers.name c) (customers.image_url c)
    (customers.email c) (invoices.id i).

Definition stmt_fetchLatestInvoices (db : Database) : Statement LatestInvoiceRaw.t :=
  fun scan =>
    Normal
      (map select_latest
         (LIMIT 5
            (ORDER_BY (date_desc (fun r => invoices.date (fst r)))
               (scan _ (JOIN (tbl_invoices db) (tbl_customers db)))))).

Definition fetchLatestInvoices (x : Run) (db : Database) : Async (list LatestInvoice.t) :=
  try_catch
    (rows <- sql x (stmt_fetchLatestInvoices db) ;;
     ret (map (fun invoice =>
                 LatestInvoice.mk
                   (formatCurrency (Some (LatestInvoiceRaw.amount invoice)))
                   (LatestInvoiceRaw.name invoice)
                   (LatestInvoiceRaw.image_url invoice)
                   (LatestInvoiceRaw.email invoice)
                   (LatestInvoiceRaw.id invoice))
            rows))
    (fun error =>
       console_error "Database Error (fetchLatestInvoices):" error ;;;
       ret []).

(** [SELECT COUNT( * ) AS count FROM invoices], [... FROM customers], and
    the two conditional sums over [invoices]. *)
Definition stmt_count_invoices (db : Database) : Statement CountRow :=
  fun scan => Normal [mkCount (Some (COUNT (scan _ (tbl_invoices db))))].

Definition stmt_count_customers (db : Database) : Statement CountRow :=
  fun scan => Normal [mkCount (Some (COUNT (scan _ (tbl_customers db))))].

Definition case_status (wanted : string) (i : invoices.row) : option Z :=
  Some (if (invoices.status i =? wanted)%string then invoices.amount i else 0).

Definition stmt_totals (db : Database) : Statement TotalsRow :=
  fun scan =>
    let rows := scan _ (tbl_invoices db) in
    Normal [mkTotals (SUM (map (case_status "paid") rows))
                     (SUM (map (case_status "pending") rows))].

(** [Promise.all] awaits the three statements; a fault of any of them
    rejects the whole.  Where several fault, the model lets the first in
    the order of the array win. *)
Definition fetchCardData (x1 x2 x3 : Run) (db : Database) : Async CardData.t :=
  try_catch
    (invoiceCount <- sql x1 (stmt_count_invoices db) ;;
     customerCount <- sql x2 (stmt_count_customers db) ;;
     totals <- sql x3 (stmt_totals db) ;;
     invoiceCount0 <- first_row invoiceCount ;;
     customerCount0 <- first_row customerCount ;;
     totals0 <- first_row totals ;;
     ret (CardData.mk
            (Number (nullish (count invoiceCount0) 0))
            (Number (nullish (count customerCount0) 0))
            (formatCurrency (nullish (paid totals0) 0))
            (formatCurrency (nullish (pending totals0) 0))))
    (fun error =>
       console_error "Database Error (fetchCardData):" error ;;;
       ret (CardData.mk 0 0 "₱0" "₱0")).

(** The [WHERE] clause of [fetchFilteredInvoices] (lines 100-105). *)
Definition where_fetchFilteredInvoices (query : string)
           (r : invoices.row * customers.row) : bool :=
  let (i, c) := r in
  ILIKE (customers.name c) (pattern_of query)
  || ILIKE (customers.email c) (pattern_of query)
  || ILIKE (int_text (invoices.amount i)) (pattern_of query)
  || ILIKE (date_text (invoices.date i)) (pattern_of query)
  || ILIKE (invoices.status i) (pattern_of query).

Definition select_invoices_table (r : invoices.row * customers.row) : InvoicesTable.t :=
  let (i, c) := r in
  InvoicesTable.mk (invoices.id i) (invoices.amount i) (invoices.date i)
    (invoices.status i) (customers.name c) (customers.email c) (customers.image_url c).

(** PostgreSQL refuses a negative [OFFSET] or [LIMIT]. *)
Definition stmt_fetchFilteredInvoices (db : Database) (query : string) (limit offset : Z)
  : Statement InvoicesTable.t :=
  fun scan =>
    if offset <? 0 then Thrown "OFFSET must not be negative"%string
    else if limit <? 0 then Thrown "LIMIT must not be negative"%string
    else
      Normal
        (map select_invoices_table
           (LIMIT limit
              (OFFSET offset
                 (ORDER_BY (date_desc (fun r => invoices.date (fst r)))
                    (filter (where_fetchFilteredInvoices query)
                       (scan _ (JOIN (tbl_invoices db) (tbl_customers db)))))))).

Definition fetchFilteredInvoices (x : Run) (db : Database)
           (query : string) (currentPage : Z) : Async (list InvoicesTable.t) :=
  try_catch
    (let offset := (currentPage - 1) * ITEMS_PER_PAGE in
     rows <- sql x (stmt_fetchFilteredInvoices db query ITEMS_PER_PAGE offset) ;;
     ret rows)
    (fun error =>
       console_error "Database Error (fetchFilteredInvoices):" error ;;;
       ret []).

(** The [WHERE] clause of [fetchInvoicesPages] (lines 122-127). *)
Definition where_fetchInvoicesPages (query : string)
           (r : invoices.row * customers.row) : bool :=
  let (i, c) := r in
  ILIKE (customers.name c) (pattern_of query)
  || ILIKE (customers.email c) (pattern_of query)
  || ILIKE (int_text (invoices.amount i)) (pattern_of query)
  || ILIKE (date_text (invoices.date i)) (pattern_of query)
  || ILIKE (invoices.status i) (pattern_of query).

(** The rows [fetchInvoicesPages] counts. *)
Definition counted_rows (db : Database) (query : string)
  : list (invoices.row * customers.row) :=
  filter (where_fetchInvoicesPages query) (JOIN (tbl_invoices db) (tbl_customers db)).

Definition stmt_fetchInvoicesPages (db : Database) (query : string) : Statement CountRow :=
  fun scan =>
    Normal
      [mkCount
         (Some (COUNT (filter (where_fetchInvoicesPages query)
                         (scan _ (JOIN (tbl_invoices db) (tbl_customers db))))))].

Definition fetchInvoicesPages (x : Run) (db : Database) (query : string) : Async Z :=
  try_catch
    (data <- sql x (stmt_fetchInvoicesPages db query) ;;
     data0 <- first_row data ;;
     ret (Math_ceil (js_div (Number (count data0)) ITEMS_PER_PAGE)))
    (fun error =>
       console_error "Database Error (fetchInvoicesPages):" error ;;;
       ret 1).

(** [SELECT id, customer_id, amount, status FROM invoices WHERE id = ${id}] *)
Definition select_form (i : invoices.row) : InvoiceFormRow.t :=
  InvoiceFormRow.mk (invoices.id i) (invoices.customer_id i)
    (invoices.amount i) (invoices.status i).

Definition stmt_fetchInvoiceById (db : Database) (id : string)
  : Statement InvoiceFormRow.t :=
  fun scan =>
    Normal
      (map select_form
         (filter (fun i => (invoices.id i =? id)%string) (scan _ (tbl_invoices db)))).

(** [null] is [None]. *)
Definition fetchInvoiceById (x : Run) (db : Database) (id : string)
  : Async (option InvoiceForm.t) :=
  try_catch
    (rows <- sql x (stmt_fetchInvoiceById db id) ;;
     match rows with
     | [] => ret None
     | rows0 :: _ =>
         ret (Some (InvoiceForm.mk
                      (InvoiceFormRow.id rows0)
                      (InvoiceFormRow.customer_id rows0)
                      (double_div (double_of_Z (InvoiceFormRow.amount rows0)) (double_of_Z 100))
                      (InvoiceFormRow.status rows0)))
     end)
    (fun error =>
       console_error "Database Error (fetchInvoiceById):" error ;;;
       ret None).

(** [SELECT id, name FROM customers ORDER BY name ASC] *)
Definition stmt_fetchCustomers (db : Database) : Statement CustomerField.t :=
  fun scan =>
    Normal
      (map (fun c => CustomerField.mk (customers.id c) (customers.name c))
         (ORDER_BY (text_asc (collation db) customers.name) (scan _ (tbl_customers db)))).

Definition fetchCustomers (x : Run) (db : Database) : Async (list CustomerField.t) :=
  try_catch
    (sql x (stmt_fetchCustomers db))
    (fun error =>
       console_error "Database Error (fetchCustomers):" error ;;;
       ret []).

(** The [WHERE] clause of [fetchFilteredCustomers] (lines 183-185). *)
Definition where_fetchFilteredCustomers (query : string)
           (r : customers.row * option invoices.row) : bool :=
  ILIKE (customers.name (fst r)) (pattern_of query)
  || ILIKE (customers.email (fst r)) (pattern_of query).

(** [CASE WHEN invoices.status = wanted THEN invoices.amount ELSE 0 END]
    on a row of the left join: a [NULL] status takes the [ELSE] branch. *)
Definition case_status_left (wanted : string) (i : option invoices.row) : option Z :=
  match i with
  | Some i' => case_status wanted i'
  | None => Some 0
  end.

Definition aggregate_customer (g : customers.row * list (customers.row * option invoices.row))
  : CustomersTableType.t :=
  let (c, rows) := g in
  CustomersTableType.mk
    (customers.id c) (customers.name c) (customers.email c) (customers.image_url c)
    (COUNT_col (map (fun r => option_map invoices.id (snd r)) rows))
    (SUM (map (fun r => case_status_left "pending" (snd r)) rows))
    (SUM (map (fun r => case_status_left "paid" (snd r)) rows)).

Definition stmt_fetchFilteredCustomers (db : Database) (query : string)
  : Statement CustomersTableType.t :=
  fun scan =>
    Normal
      (ORDER_BY (text_asc (collation db) CustomersTableType.name)
         (map aggregate_customer
            (GROUP_BY customers.eqb fst
               (filter (where_fetchFilteredCustomers query)
                  (scan _ (LEFT_JOIN (tbl_customers db) (tbl_invoices db))))))).

Definition format_customer (customer : CustomersTableType.t) : FormattedCustomersTable.t :=
  FormattedCustomersTable.mk
    (CustomersTableType.id customer)
    (CustomersTableType.name customer)
    (CustomersTableType.email customer)
    (CustomersTableType.image_url customer)
    (CustomersTableType.total_invoices customer)
    (formatCurrency (CustomersTableType.total_pending customer))
    (formatCurrency (CustomersTableType.total_paid customer)).

Definition fetchFilteredCustomers (x : Run) (db : Database) (query : string)
  : Async (list FormattedCustomersTable.t) :=
  try_catch
    (rows <- sql x (stmt_fetchFilteredCustomers db query) ;;
     ret (map format_customer rows))
    (fun error =>
       console_error "Database Error (fetchFilteredCustomers):" error ;;;
       ret []).

End Operations.

(** What an operation returned, and whether it returned at all. *)
Definition value_of {A : Type} (r : completion A * Console) : option A :=
  match fst r with Normal a => Some a | Thrown _ => None end.

(** Two enumerations: the stored order, and its reverse. *)
Definition stored_order : Run := mkRun None (fun _ l => l) (fun _ l => Permutation_refl l).

Definition reverse_order : Run :=
  mkRun None (fun _ l => rev l) (fun _ l => Permutation_sym (Permutation_rev l)).

Definition faulting (e : Error) : Run :=
  mkRun (Some e) (fun _ l => l) (fun _ l => Permutation_refl l).

(* ------------------------------------------------------------------ *)
(** ** Vocabulary of the properties *)

(** The matching rows in the order one execution of the statement of
    [fetchFilteredInvoices] puts them, before [OFFSET] and [LIMIT]. *)
Definition ordered_matches (x : Run) (db : Database) (query : string)
  : list (invoices.row * customers.row) :=
  ORDER_BY (date_desc (fun r => invoices.date (fst r)))
    (filter (where_fetchFilteredInvoices query)
       (arrange x _ (JOIN (tbl_invoices db) (tbl_customers db)))).

(** The page numbers [1 .. n]. *)
Definition page_numbers (n : Z) : list Z := map Z.of_nat (seq 1 (Z.to_nat n)).

(** Rows in descending order of date. *)
Definition date_descending {A : Type} (date : A -> Date) (l : list A) : Prop :=
  StronglySorted (fun a b => date_leb (date b) (date a) = true) l.

(** The page count as the specification words it: the ceiling of the
    number of matches over six, and at least one. *)
Definition page_count_as_specified (matchCount : Z) : Z :=
  Z.max 1 (Math_ceil (js_div matchCount 6)).

(** The four customer columns of a row of [fetchFilteredCustomers]. *)
Definition customer_of (t : FormattedCustomersTable.t) : customers.row :=
  customers.mk (FormattedCustomersTable.id t) (FormattedCustomersTable.name t)
    (FormattedCustomersTable.email t) (FormattedCustomersTable.image_url t).

(** The slice of the ordered matches that page [p] shows. *)
Definition page_slice (x : Run) (db : Database) (query : string) (p : Z)
  : list InvoicesTable.t :=
  map select_invoices_table
    (firstn 6 (skipn (6 * Z.to_nat (p - 1)) (ordered_matches x db query))).

(** The rows of the left join that pass the [WHERE] clause. *)
Definition matching_customer_rows (x : Run) (db : Database) (query : string)
  : list (customers.row * option invoices.row) :=
  filter (where_fetchFilteredCustomers query)
    (arrange x _ (LEFT_JOIN (tbl_customers db) (tbl_invoices db))).


(** What every collation is: any two texts compare, and the comparison
    is transitive. *)
Definition is_collation (leb : string -> string -> bool) : Prop :=
  (forall a b, leb a b = true \/ leb b a = true) /\
  (forall a b c, leb a b = true -> leb b c = true -> leb a c = true).

(** Rows in ascending order of a text column under a collation. *)
Definition text_ascending {A : Type} (leb : string -> string -> bool)
           (col : A -> string) (l : list A) : Prop :=
  StronglySorted (fun a b => leb (col a) (col b) = true) l.



(** The sum of the amounts of the invoices of one status. *)
Definition total_of (wanted : string) (l : list invoices.row) : Z :=
  fold_right Z.add 0
    (map invoices.amount (filter (fun i => (invoices.status i =? wanted)%string) l)).

(** The invoices of a customer. *)
Definition invoices_of (c : customers.row) (inv : list invoices.row) : list invoices.row :=
  filter (fun i => (customers.id c =? invoices.customer_id i)%string) inv.

(** Sample data: two customers, the second without invoice, and seven
    invoices of the first, all of one day, in a database whose collation
    is the bytewise order. *)
Definition acme : customers.row :=
  customers.mk "c-acme" "Acme" "ap@acme.io" "/customers/acme.png".

Definition bolt : customers.row :=
  customers.mk "c-bolt" "Bolt" "hi@bolt.io" "/customers/bolt.png".

Definition fifth_of_january : Date := mkDate 2024 1 5.

Definition invoice_of_acme (id : string) (amount : Z) : invoices.row :=
  invoices.mk id "c-acme" amount "pending" fifth_of_january.

Definition seven_same_day : Database :=
  mkDatabase
    [invoice_of_acme "1" 100000; invoice_of_acme "2" 20000; invoice_of_acme "3" 30000;
     invoice_of_acme "4" 40000; invoice_of_acme "5" 50000; invoice_of_acme "6" 60000;
     invoice_of_acme "7" 70000]
    [acme; bolt]
    []
    String.leb.


Definition connection_lost : Error := "connection lost"%string.

(** Two invoices of different days. *)
Definition two_days : Database :=
  mkDatabase
    [invoices.mk "a" "c-acme" 1500 "paid" (mkDate 2024 1 5);
     invoices.mk "b" "c-acme" 2500 "pending" (mkDate 2024 2 9)]
    [acme; bolt]
    []
    String.leb.

(** The revenue of three months. *)
Definition first_quarter : Database :=
  mkDatabase [] []
    [revenue.mk "Jan" 2000; revenue.mk "Feb" 1800; revenue.mk "Mar" 2200]
    String.leb.

(** A collation that sets letter case aside, and the revenue of four
    months under it. *)
Definition caseless (a b : string) : bool :=
  String.leb (string_of_list_ascii (lower (chars a)))
             (string_of_list_ascii (lower (chars b))).

Definition four_months : Database :=
  mkDatabase [] []
    [revenue.mk "jan" 2000; revenue.mk "Feb" 1800; revenue.mk "Mar" 2200;
     revenue.mk "apr" 2500]
    caseless.

(** An invoice whose customer is not in the customers table, beside one
    whose customer is. *)
Definition with_orphan : Database :=
  mkDatabase
    [invoices.mk "a" "c-acme" 1500 "paid" (mkDate 2024 1 5);
     invoices.mk "z" "c-gone" 9900 "paid" (mkDate 2024 3 1)]
    [acme; bolt]
    []
    String.leb.

(* ------------------------------------------------------------------ *)
(** ** Text and patterns *)

Lemma chars_append (a b : string) : chars (a ++ b)%string = chars a ++ chars b.
Proof.
  induction a as [|c a IH]; simpl; [reflexivity|].
  unfold chars in *. simpl. now rewrite IH.
Qed.

Lemma chars_pattern_of (q : string) :
  chars (pattern_of q) = "%"%char :: chars q ++ ["%"%char].
Proof.
  unfold pattern_of. unfold chars at 1. simpl. f_equal.
  change (list_ascii_of_string (q ++ String "%" EmptyString)%string)
    with (chars (q ++ String "%" EmptyString)%string).
  now rewrite chars_append.
Qed.

Lemma to_lower_meta (c : ascii) : is_meta (to_lower c) = is_meta c.
Proof.
  destruct c as [[] [] [] [] [] [] [] []]; reflexivity.
Qed.

Lemma plain_lower (q : list ascii) : plain (lower q) = plain q.
Proof.
  induction q as [|c q IH]; simpl; [reflexivity|].
  now rewrite to_lower_meta, IH.
Qed.

Lemma lower_app (a b : list ascii) : lower (a ++ b) = lower a ++ lower b.
Proof. apply map_app. Qed.

Lemma like_percent_only (s : list ascii) : like ["%"%char] s = true.
Proof.
  induction s as [|a s IH]; [reflexivity|].
  simpl in *. exact IH.
Qed.

(** [%] followed by [p] matches exactly the texts with a suffix that [p] matches. *)
Lemma like_percent (p s : list ascii) :
  like ("%"%char :: p) s = true <-> exists pre t, s = pre ++ t /\ like p t = true.
Proof.
  induction s as [|a s IH].
  - simpl. rewrite orb_false_r. split.
    + intros H; exists [], []; auto.
    + intros (pre & t & E & H). symmetry in E. apply app_eq_nil in E as [-> ->]. exact H.
  - change (like ("%"%char :: p) (a :: s))
      with (like p (a :: s) || like ("%"%char :: p) s).
    rewrite orb_true_iff, IH. split.
    + intros [H | (pre & t & -> & H)].
      * exists [], (a :: s); auto.
      * exists (a :: pre), t; auto.
    + intros (pre & t & E & H). destruct pre as [|b pre]; simpl in E.
      * left. now subst t.
      * right. injection E as -> ->. exists pre, t; auto.
Qed.

Lemma like_plain_cons (c : ascii) (p s : list ascii) :
  is_meta c = false ->
  like (c :: p) s = match s with [] => false | a :: s' => (a =? c)%char && like p s' end.
Proof.
  unfold is_meta. intros H.
  apply orb_false_iff in H as [H H3]. apply orb_false_iff in H as [H1 H2].
  simpl. now rewrite H1, H2, H3.
Qed.

(** A pattern of plain characters closed by [%] matches exactly the texts
    that start with those characters. *)
Lemma like_plain_prefix (q s : list ascii) :
  plain q = true ->
  like (q ++ ["%"%char]) s = true <-> exists post, s = q ++ post.
Proof.
  revert s. induction q as [|c q IH]; intros s Hq.
  - simpl app. split; [exists s; reflexivity | intros _; apply like_percent_only].
  - simpl in Hq. apply andb_true_iff in Hq as [Hc Hq]. apply negb_true_iff in Hc.
    simpl app. rewrite like_plain_cons by exact Hc.
    destruct s as [|a s].
    + split; [discriminate | intros [post E]; discriminate].
    + rewrite andb_true_iff, (IH s Hq), Ascii.eqb_eq. split.
      * intros [-> [post ->]]. exists post; reflexivity.
      * intros [post E]. injection E as -> ->. split; [reflexivity | exists post; reflexivity].
Qed.

Lemma like_contains (q s : list ascii) :
  plain q = true ->
  like ("%"%char :: q ++ ["%"%char]) s = true <-> Substring q s.
Proof.
  intros Hq. rewrite like_percent. unfold Substring. split.
  - intros (pre & t & -> & H). apply (like_plain_prefix q t Hq) in H as [post ->].
    exists pre, post; reflexivity.
  - intros (pre & post & ->). exists pre, (q ++ post). split; [reflexivity|].
    apply (like_plain_prefix q _ Hq). exists post; reflexivity.
Qed.

Lemma lower_pattern (q : string) :
  lower (chars (pattern_of q)) = "%"%char :: lower (chars q) ++ ["%"%char].
Proof. rewrite chars_pattern_of. simpl. now rewrite lower_app. Qed.

(** With a query free of [%], [_] and backslash, [ILIKE] against the
    pattern built from it is case-insensitive containment. *)
Lemma ILIKE_plain (q s : string) :
  plain (chars q) = true ->
  ILIKE s (pattern_of q) = true <-> ci_substring q s.
Proof.
  intros Hq. unfold ILIKE, ci_substring. rewrite lower_pattern.
  apply like_contains. now rewrite plain_lower.
Qed.

Lemma ILIKE_empty_query (s : string) : ILIKE s (pattern_of EmptyString) = true.
Proof.
  unfold ILIKE. rewrite lower_pattern.
  apply (proj2 (like_percent _ _)). exists [], (lower (chars s)).
  split; [reflexivity | apply like_percent_only].
Qed.

(** The pattern built from a query never ends in a lone backslash: the
    engine never refuses it. *)
Lemma like_wf_closed (q : list ascii) :
  like_wf (q ++ ["%"%char]) = true.
Proof.
  assert (H : forall n q, (List.length q <= n)%nat -> like_wf (q ++ ["%"%char]) = true).
  { induction n as [|n IH]; intros [|c l] Hl; simpl in Hl; try reflexivity; try lia.
    simpl. destruct (c =? "\")%char.
    - destruct l as [|d l]; [reflexivity|]. simpl. apply IH. simpl in Hl. lia.
    - apply IH. lia. }
  apply (H (List.length q)). lia.
Qed.

Lemma pattern_of_wf (q : string) : like_wf (lower (chars (pattern_of q))) = true.
Proof. rewrite lower_pattern. simpl. apply like_wf_closed. Qed.

Lemma starts_with_spec (q s : list ascii) :
  starts_with q s = true <-> exists post, s = q ++ post.
Proof.
  revert s. induction q as [|c q IH]; intros s.
  - simpl. split; [exists s; reflexivity | reflexivity].
  - destruct s as [|a s]; simpl.
    + split; [discriminate | intros [post E]; discriminate].
    + rewrite andb_true_iff, IH, Ascii.eqb_eq. split.
      * intros [-> [post ->]]. exists post; reflexivity.
      * intros [post E]. injection E as -> ->. split; [reflexivity | exists post; reflexivity].
Qed.

Lemma substringb_spec (q s : list ascii) : substringb q s = true <-> Substring q s.
Proof.
  unfold Substring. induction s as [|a s IH].
  - simpl. rewrite orb_false_r, starts_with_spec. split.
    + intros [post E]. exists [], post. exact E.
    + intros (pre & post & E). destruct pre; [exists post; exact E | discriminate].
  - change (substringb q (a :: s)) with (starts_with q (a :: s) || substringb q s).
    rewrite orb_true_iff, starts_with_spec, IH. split.
    + intros [[post E] | (pre & post & E)].
      * exists [], post. exact E.
      * exists (a :: pre), post. simpl. now rewrite E.
    + intros (pre & post & E). destruct pre as [|b pre]; simpl in E.
      * left. exists post. exact E.
      * right. injection E as _ E. exists pre, post. exact E.
Qed.

(* ------------------------------------------------------------------ *)
(** ** Ordering, enumeration and slicing *)

Lemma insert_by_perm {R : Type} (leb : R -> R -> bool) (r : R) (l : list R) :
  Permutation (insert_by leb r l) (r :: l).
Proof.
  induction l as [|h t IH]; simpl; [apply Permutation_refl|].
  destruct (leb r h); [apply Permutation_refl|].
  eapply Permutation_trans; [apply perm_skip, IH | apply perm_swap].
Qed.

Lemma ORDER_BY_perm {R : Type} (leb : R -> R -> bool) (l : list R) :
  Permutation (ORDER_BY leb l) l.
Proof.
  induction l as [|r l IH]; simpl; [constructor|].
  eapply Permutation_trans; [apply insert_by_perm | apply perm_skip, IH].
Qed.

Section Sorting.

Variable R : Type.
Variable leb : R -> R -> bool.
Hypothesis leb_total : forall a b, leb a b = true \/ leb b a = true.
Hypothesis leb_trans : forall a b c, leb a b = true -> leb b c = true -> leb a c = true.

Let le (a b : R) : Prop := leb a b = true.

Lemma insert_by_sorted (r : R) (l : list R) :
  StronglySorted le l -> StronglySorted le (insert_by leb r l).
Proof.
  induction 1 as [|h t Ht IH Hh]; simpl.
  - repeat constructor.
  - destruct (leb r h) eqn:E.
    + constructor; [constructor; assumption|].
      constructor; [exact E|].
      eapply Forall_impl; [|exact Hh]. intros b Hb. exact (leb_trans _ _ _ E Hb).
    + constructor; [exact IH|].
      assert (Hhr : le h r) by (destruct (leb_total r h); [congruence | assumption]).
      apply Forall_forall. intros b Hb.
      apply (Permutation_in _ (insert_by_perm leb r t)) in Hb as [<- | Hb]; [exact Hhr|].
      rewrite Forall_forall in Hh. now apply Hh.
Qed.

Lemma ORDER_BY_sorted (l : list R) : StronglySorted le (ORDER_BY leb l).
Proof.
  induction l as [|r l IH]; simpl; [constructor | now apply insert_by_sorted].
Qed.

(** There is one sorted arrangement of rows no two of which tie. *)
Lemma sorted_perm_unique (l1 l2 : list R) :
  StronglySorted le l1 -> StronglySorted le l2 -> Permutation l1 l2 ->
  (forall a b, In a l1 -> In b l1 -> le a b -> le b a -> a = b) ->
  l1 = l2.
Proof.
  intros S1. revert l2. induction S1 as [|a t1 St1 IH Ha]; intros l2 S2 P Htie.
  - apply Permutation_nil in P. now subst.
  - destruct l2 as [|b t2]; [apply Permutation_sym, Permutation_nil in P; discriminate|].
    inversion S2 as [|? ? St2 Hb]; subst.
    assert (a = b) as <-.
    { assert (Hb1 : In b (a :: t1)) by (apply (Permutation_in _ (Permutation_sym P)); now left).
      assert (Ha2 : In a (b :: t2)) by (apply (Permutation_in _ P); now left).
      destruct Hb1 as [E | Hb1]; [exact E|]. destruct Ha2 as [E | Ha2]; [now symmetry|].
      rewrite Forall_forall in Ha, Hb.
      apply Htie; [now left | now right | now apply Ha | now apply Hb]. }
    f_equal. apply IH; [exact St2 | exact (Permutation_cons_inv P) |].
    intros x y Hx Hy. apply Htie; now right.
Qed.

End Sorting.

Lemma filter_perm {R : Type} (f : R -> bool) (l l' : list R) :
  Permutation l l' -> Permutation (filter f l) (filter f l').
Proof.
  induction 1 as [| x l l' _ IH | x y l | l l' l'' _ IH1 _ IH2]; simpl.
  - constructor.
  - destruct (f x); [now constructor | exact IH].
  - destruct (f x), (f y); try apply Permutation_refl. apply perm_swap.
  - eapply Permutation_trans; eassumption.
Qed.

Lemma COUNT_perm {R : Type} (l l' : list R) : Permutation l l' -> COUNT l = COUNT l'.
Proof. intros P. unfold COUNT. now rewrite (Permutation_length P). Qed.

Lemma date_leb_total (a b : Date) : date_leb a b = true \/ date_leb b a = true.
Proof.
  unfold date_leb.
  destruct (year a =? year b)%nat eqn:Y, (year b =? year a)%nat eqn:Y';
  destruct (month_of a =? month_of b)%nat eqn:M, (month_of b =? month_of a)%nat eqn:M';
  rewrite ?Nat.eqb_eq, ?Nat.eqb_neq, ?Nat.leb_le, ?Nat.ltb_lt in *; lia.
Qed.

Lemma date_leb_trans (a b c : Date) :
  date_leb a b = true -> date_leb b c = true -> date_leb a c = true.
Proof.
  unfold date_leb.
  destruct (year a =? year b)%nat eqn:Y1, (year b =? year c)%nat eqn:Y2,
           (year a =? year c)%nat eqn:Y3;
  destruct (month_of a =? month_of b)%nat eqn:M1, (month_of b =? month_of c)%nat eqn:M2,
           (month_of a =? month_of c)%nat eqn:M3;
  rewrite ?Nat.eqb_eq, ?Nat.eqb_neq, ?Nat.leb_le, ?Nat.ltb_lt in *; lia.
Qed.

Lemma date_leb_antisym (a b : Date) :
  date_leb a b = true -> date_leb b a = true -> a = b.
Proof.
  unfold date_leb. destruct a as [ya ma da], b as [yb mb db]. simpl.
  destruct (ya =? yb)%nat eqn:Y, (yb =? ya)%nat eqn:Y';
  destruct (ma =? mb)%nat eqn:M, (mb =? ma)%nat eqn:M';
  rewrite ?Nat.eqb_eq, ?Nat.eqb_neq, ?Nat.leb_le, ?Nat.ltb_lt in *;
  intros; try lia. f_equal; lia.
Qed.

Lemma ORDER_BY_date_desc {A : Type} (date : A -> Date) (l : list A) :
  date_descending date (ORDER_BY (date_desc date) l).
Proof.
  unfold date_descending.
  apply (ORDER_BY_sorted A (date_desc date)); unfold date_desc.
  - intros a b. destruct (date_leb_total (date a) (date b)); auto.
  - intros a b c H1 H2. exact (date_leb_trans _ _ _ H2 H1).
Qed.

(** Cutting a list into consecutive slices of [size] rows loses and
    repeats nothing, as soon as the slices reach the end of the list. *)
Lemma slices_concat {R : Type} (size : nat) (m : nat) (l : list R) :
  (List.length l <= size * m)%nat ->
  List.concat (map (fun j => firstn size (skipn (size * j) l)) (seq 0 m)) = l.
Proof.
  revert l. induction m as [|m IH]; intros l Hl.
  - destruct l; [reflexivity | simpl in Hl; lia].
  - cbn [seq map List.concat]. rewrite Nat.mul_0_r. cbn [skipn].
    rewrite <- seq_shift, map_map.
    transitivity (firstn size l ++ skipn size l); [|apply firstn_skipn].
    f_equal.
    rewrite <- (IH (skipn size l)) by (rewrite length_skipn; lia).
    f_equal. apply map_ext. intros j. f_equal.
    rewrite skipn_skipn. f_equal. lia.
Qed.

Lemma js_div_ceil (n : Z) : Math_ceil (js_div n 6) = (n + 5) / 6.
Proof.
  unfold Math_ceil, js_div, Qceiling, Qfloor, Qdiv, Qmult, Qinv, Qopp, inject_Z.
  cbn [Qnum Qden Z.opp]. change (Z.pos (1 * 6)) with 6.
  rewrite Z.mul_1_r.
  pose proof (Z.div_mod (- n) 6 ltac:(lia)) as H1.
  pose proof (Z.mod_pos_bound (- n) 6 ltac:(lia)) as H2.
  pose proof (Z.div_mod (n + 5) 6 ltac:(lia)) as H3.
  pose proof (Z.mod_pos_bound (n + 5) 6 ltac:(lia)) as H4.
  lia.
Qed.

Lemma firstn_subset {R : Type} (n : nat) (l : list R) (r : R) :
  In r (firstn n l) -> In r l.
Proof.
  intros H. rewrite <- (firstn_skipn n l). apply in_or_app. now left.
Qed.

Lemma skipn_subset {R : Type} (n : nat) (l : list R) (r : R) :
  In r (skipn n l) -> In r l.
Proof.
  intros H. rewrite <- (firstn_skipn n l). apply in_or_app. now right.
Qed.

Lemma sorted_map {A B : Type} (f : A -> B) (RA : A -> A -> Prop) (RB : B -> B -> Prop)
      (l : list A) :
  (forall a b, RA a b -> RB (f a) (f b)) ->
  StronglySorted RA l -> StronglySorted RB (map f l).
Proof.
  intros Hf. induction 1 as [|a l Hl IH Ha]; simpl; constructor; [exact IH|].
  apply Forall_forall. intros b Hb. apply in_map_iff in Hb as (b' & <- & Hb').
  rewrite Forall_forall in Ha. apply Hf. now apply Ha.
Qed.

(* ------------------------------------------------------------------ *)
(** ** The invoice search: page count and pages *)

Ltac unfold_async :=
  unfold try_catch, bind, sql, first_row, console_error; unfold ret, throw.

Lemma counted_rows_enumerated (x : Run) (db : Database) (query : string) :
  COUNT (filter (where_fetchInvoicesPages query)
           (arrange x _ (JOIN (tbl_invoices db) (tbl_customers db))))
  = COUNT (counted_rows db query).
Proof. apply COUNT_perm, filter_perm, arrange_perm. Qed.

Lemma fetchInvoicesPages_ok (x : Run) (db : Database) (query : string) (k : Console) :
  fault x = None ->
  fetchInvoicesPages x db query k = (Normal ((COUNT (counted_rows db query) + 5) / 6), k).
Proof.
  intros Hx. unfold fetchInvoicesPages, stmt_fetchInvoicesPages. unfold_async.
  rewrite Hx. cbn [count Number]. unfold ITEMS_PER_PAGE.
  now rewrite js_div_ceil, counted_rows_enumerated.
Qed.

Lemma ordered_matches_perm (x : Run) (db : Database) (query : string) :
  Permutation (ordered_matches x db query) (counted_rows db query).
Proof.
  unfold ordered_matches, counted_rows.
  eapply Permutation_trans; [apply ORDER_BY_perm|].
  apply filter_perm, arrange_perm.
Qed.

Lemma ordered_matches_length (x : Run) (db : Database) (query : string) :
  Z.of_nat (List.length (ordered_matches x db query)) = COUNT (counted_rows db query).
Proof. apply (COUNT_perm _ _ (ordered_matches_perm x db query)). Qed.

Lemma fetchFilteredInvoices_ok (x : Run) (db : Database) (query : string) (p : Z)
      (k : Console) :
  fault x = None -> 1 <= p ->
  fetchFilteredInvoices x db query p k = (Normal (page_slice x db query p), k).
Proof.
  intros Hx Hp. unfold fetchFilteredInvoices, stmt_fetchFilteredInvoices. unfold_async.
  rewrite Hx. unfold ITEMS_PER_PAGE.
  destruct ((p - 1) * 6 <? 0) eqn:E; [apply Z.ltb_lt in E; lia|].
  change (6 <? 0) with false. cbv iota.
  unfold page_slice, LIMIT, OFFSET, ordered_matches.
  replace (Z.to_nat ((p - 1) * 6)) with (6 * Z.to_nat (p - 1))%nat by lia.
  reflexivity.
Qed.

Lemma fetchFilteredInvoices_before_first (x : Run) (db : Database) (query : string)
      (p : Z) (k : Console) :
  fault x = None -> p < 1 ->
  fetchFilteredInvoices x db query p k
  = (Normal [], k ++ [("Database Error (fetchFilteredInvoices):"%string,
                       "OFFSET must not be negative"%string)]).
Proof.
  intros Hx Hp. unfold fetchFilteredInvoices, stmt_fetchFilteredInvoices. unfold_async.
  rewrite Hx. unfold ITEMS_PER_PAGE.
  destruct ((p - 1) * 6 <? 0) eqn:E; [reflexivity | apply Z.ltb_ge in E; lia].
Qed.

Lemma fetchFilteredInvoices_fault (x : Run) (db : Database) (query : string)
      (p : Z) (e : Error) (k : Console) :
  fault x = Some e ->
  fetchFilteredInvoices x db query p k
  = (Normal [], k ++ [("Database Error (fetchFilteredInvoices):"%string, e)]).
Proof.
  intros Hx. unfold fetchFilteredInvoices. unfold_async. now rewrite Hx.
Qed.

(** The slices of pages [1 .. n] put end to end are the ordered matches,
    once [6 * n] reaches their number. *)
Lemma page_slices_concat (x : Run) (db : Database) (query : string) (n : Z) :
  COUNT (counted_rows db query) <= 6 * n ->
  List.concat (map (page_slice x db query) (page_numbers n))
  = map select_invoices_table (ordered_matches x db query).
Proof.
  intros Hn. unfold page_numbers. rewrite <- seq_shift, !map_map.
  assert (Hlen : (List.length (ordered_matches x db query) <= 6 * Z.to_nat n)%nat).
  { pose proof (ordered_matches_length x db query). unfold COUNT in *. lia. }
  pose proof (slices_concat 6 (Z.to_nat n) (ordered_matches x db query) Hlen) as E.
  apply (f_equal (map select_invoices_table)) in E.
  rewrite <- E, concat_map, map_map. f_equal. apply map_ext. intros j.
  unfold page_slice. do 3 f_equal. lia.
Qed.

Lemma page_count_bounds (n : Z) :
  0 <= n -> 6 * ((n + 5) / 6 - 1) < n <= 6 * ((n + 5) / 6).
Proof.
  intros Hn.
  pose proof (Z.div_mod (n + 5) 6 ltac:(lia)).
  pose proof (Z.mod_pos_bound (n + 5) 6 ltac:(lia)). lia.
Qed.

Lemma COUNT_nonneg {R : Type} (l : list R) : 0 <= COUNT l.
Proof. unfold COUNT. lia. Qed.

(** The matching rows are ordered alike by every execution of the
    statement of [fetchFilteredInvoices] when no two of them bear the
    same date: paging then repeats and skips nothing. *)
Lemma ordered_matches_distinct_dates (db : Database) (query : string) :
  (forall a b, In a (counted_rows db query) -> In b (counted_rows db query) ->
               invoices.date (fst a) = invoices.date (fst b) -> a = b) ->
  forall x x', ordered_matches x db query = ordered_matches x' db query.
Proof.
  intros Hdistinct x x'.
  apply (sorted_perm_unique _ (date_desc (fun r => invoices.date (fst r)))).
  - apply (ORDER_BY_date_desc (fun r : invoices.row * customers.row => invoices.date (fst r))).
  - apply (ORDER_BY_date_desc (fun r : invoices.row * customers.row => invoices.date (fst r))).
  - eapply Permutation_trans; [apply ordered_matches_perm|].
    apply Permutation_sym, ordered_matches_perm.
  - intros a b Ha Hb Hab Hba. unfold date_desc in *.
    apply Hdistinct.
    + exact (Permutation_in _ (ordered_matches_perm x db query) Ha).
    + exact (Permutation_in _ (ordered_matches_perm x db query) Hb).
    + apply date_leb_antisym; assumption.
Qed.

(** C1 (as the code has it).  When its statement executes without fault,
    [fetchInvoicesPages] returns the least integer [pages] with
    [count <= 6 * pages], the ceiling of [count / 6], where [count] is the
    number of rows matching the query.  That number is [0] exactly when
    no row matches and at least [1] exactly when some row matches: no
    minimum of [1] is applied. *)
Theorem fetchInvoicesPages_is_ceiling :
  forall (x : Run) (db : Database) (query : string) (k : Console),
    fault x = None ->
    exists pages,
      fetchInvoicesPages x db query k = (Normal pages, k) /\
      6 * (pages - 1) < COUNT (counted_rows db query) <= 6 * pages /\
      (pages = 0 <-> COUNT (counted_rows db query) = 0) /\
      (1 <= pages <-> 1 <= COUNT (counted_rows db query)).
Proof.
  intros x db query k Hx.
  exists ((COUNT (counted_rows db query) + 5) / 6).
  pose proof (COUNT_nonneg (counted_rows db query)) as H0.
  pose proof (page_count_bounds _ H0) as Hb.
  split; [now apply fetchInvoicesPages_ok|].
  split; [exact Hb|]. split; split; intros; lia.
Qed.

Lemma fetchInvoicesPages_is_ceiling_witness :
  exists pages,
    fetchInvoicesPages stored_order seven_same_day "acme" [] = (Normal pages, []) /\
    6 * (pages - 1) < COUNT (counted_rows seven_same_day "acme") <= 6 * pages /\
    (pages = 0 <-> COUNT (counted_rows seven_same_day "acme") = 0) /\
    (1 <= pages <-> 1 <= COUNT (counted_rows seven_same_day "acme")).
Proof.
  apply (fetchInvoicesPages_is_ceiling stored_order seven_same_day "acme" []).
  reflexivity.
Defined.

(** C1 as stated fails: a query that matches no row yields the page count
    [0], where the claim promises [1]. *)
Lemma fetchInvoicesPages_returns_zero :
  COUNT (counted_rows seven_same_day "zzz") = 0 /\
  fetchInvoicesPages stored_order seven_same_day "zzz" [] = (Normal 0, []) /\
  value_of (fetchInvoicesPages stored_order seven_same_day "zzz" [])
  <> Some (page_count_as_specified (COUNT (counted_rows seven_same_day "zzz"))).
Proof.
  split; [vm_compute; reflexivity|].
  split; [vm_compute; reflexivity|].
  vm_compute. discriminate.
Qed.

(** C2.  The [WHERE] clauses of [fetchInvoicesPages] and of
    [fetchFilteredInvoices] are the same predicate.  For executions
    without fault, the number that the count statement of
    [fetchInvoicesPages] returns is the number of rows that the pages
    [1 .. fetchInvoicesPages(q)] of [fetchFilteredInvoices] show, these
    rows are the rows counted, each once, later pages show nothing, and a
    row is among the rows counted exactly when some page [>= 1] shows
    it. *)
Theorem page_count_and_pages_share_the_filter :
  forall (xc x : Run) (db : Database) (query : string) (k : Console),
    fault xc = None ->
    fault x = None ->
    (forall r, where_fetchInvoicesPages query r = where_fetchFilteredInvoices query r) /\
    (forall t : InvoicesTable.t,
        In t (map select_invoices_table (counted_rows db query)) <->
        exists page rows,
          1 <= page /\
          fetchFilteredInvoices x db query page k = (Normal rows, k) /\
          In t rows) /\
    exists (counted n : Z) (pages : Z -> list InvoicesTable.t),
      sql xc (stmt_fetchInvoicesPages db query) k = (Normal [mkCount (Some counted)], k) /\
      fetchInvoicesPages xc db query k = (Normal n, k) /\
      (forall p, 1 <= p -> fetchFilteredInvoices x db query p k = (Normal (pages p), k)) /\
      counted = Z.of_nat (List.length (List.concat (map pages (page_numbers n)))) /\
      Permutation (List.concat (map pages (page_numbers n)))
                  (map select_invoices_table (counted_rows db query)) /\
      (forall p, n < p -> pages p = []) /\
      6 * (n - 1) < counted <= 6 * n.
Proof.
  intros xc x db query k Hc Hx.
  set (n := (COUNT (counted_rows db query) + 5) / 6).
  assert (Hn : 6 * (n - 1) < COUNT (counted_rows db query) <= 6 * n).
  { apply page_count_bounds, COUNT_nonneg. }
  split; [reflexivity|]. split.
  - intros t. split.
    + intros Ht.
      assert (Ht' : In t (map select_invoices_table (ordered_matches x db query))).
      { apply (Permutation_in t (Permutation_map _ (Permutation_sym
                 (ordered_matches_perm x db query)))), Ht. }
      rewrite <- (page_slices_concat x db query n (proj2 Hn)) in Ht'.
      apply in_concat in Ht' as (rows & Hrows & Hin).
      apply in_map_iff in Hrows as (page & <- & Hpage).
      unfold page_numbers in Hpage. apply in_map_iff in Hpage as (j & <- & Hj).
      apply in_seq in Hj.
      exists (Z.of_nat j), (page_slice x db query (Z.of_nat j)).
      split; [lia|]. split; [apply fetchFilteredInvoices_ok; [exact Hx | lia] | exact Hin].
    + intros (page & rows & Hpage & Hrun & Hin).
      rewrite (fetchFilteredInvoices_ok x db query page k Hx Hpage) in Hrun.
      injection Hrun as <-. unfold page_slice in Hin.
      apply in_map_iff in Hin as (r & <- & Hr). apply in_map.
      apply firstn_subset, skipn_subset in Hr.
      exact (Permutation_in r (ordered_matches_perm x db query) Hr).
  - exists (COUNT (counted_rows db query)), n, (page_slice x db query).
    split; [|split; [|split; [|split; [|split; [|split]]]]].
    + unfold sql, stmt_fetchInvoicesPages. rewrite Hc.
      now rewrite counted_rows_enumerated.
    + now apply fetchInvoicesPages_ok.
    + intros p Hp. now apply fetchFilteredInvoices_ok.
    + rewrite (page_slices_concat x db query n (proj2 Hn)), length_map.
      symmetry. apply ordered_matches_length.
    + rewrite (page_slices_concat x db query n (proj2 Hn)).
      apply Permutation_map, ordered_matches_perm.
    + intros p Hp. unfold page_slice. rewrite skipn_all2; [now rewrite firstn_nil|].
      pose proof (ordered_matches_length x db query) as Hlen.
      unfold COUNT in *. lia.
    + exact Hn.
Qed.

Lemma page_count_and_pages_share_the_filter_witness :
  (forall r, where_fetchInvoicesPages "acme" r = where_fetchFilteredInvoices "acme" r) /\
  (forall t : InvoicesTable.t,
      In t (map select_invoices_table (counted_rows seven_same_day "acme")) <->
      exists page rows,
        1 <= page /\
        fetchFilteredInvoices reverse_order seven_same_day "acme" page [] = (Normal rows, []) /\
        In t rows) /\
  exists (counted n : Z) (pages : Z -> list InvoicesTable.t),
    sql stored_order (stmt_fetchInvoicesPages seven_same_day "acme") []
    = (Normal [mkCount (Some counted)], []) /\
    fetchInvoicesPages stored_order seven_same_day "acme" [] = (Normal n, []) /\
    (forall p, 1 <= p ->
               fetchFilteredInvoices reverse_order seven_same_day "acme" p []
               = (Normal (pages p), [])) /\
    counted = Z.of_nat (List.length (List.concat (map pages (page_numbers n)))) /\
    Permutation (List.concat (map pages (page_numbers n)))
                (map select_invoices_table (counted_rows seven_same_day "acme")) /\
    (forall p, n < p -> pages p = []) /\
    6 * (n - 1) < counted <= 6 * n.
Proof.
  apply (page_count_and_pages_share_the_filter stored_order reverse_order
           seven_same_day "acme" []); reflexivity.
Defined.

(** Seven invoices match [acme]: the count statement returns 7 and the
    two pages hold 6 rows and 1 row. *)
Example seven_counted_seven_shown :
  sql stored_order (stmt_fetchInvoicesPages seven_same_day "acme") []
  = (Normal [mkCount (Some 7)], []) /\
  fetchInvoicesPages stored_order seven_same_day "acme" [] = (Normal 2, []) /\
  exists page1 page2,
    fetchFilteredInvoices reverse_order seven_same_day "acme" 1 [] = (Normal page1, []) /\
    fetchFilteredInvoices reverse_order seven_same_day "acme" 2 [] = (Normal page2, []) /\
    List.length page1 = 6%nat /\ List.length page2 = 1%nat.
Proof.
  split; [vm_compute; reflexivity|]. split; [vm_compute; reflexivity|].
  eexists. eexists. split; [vm_compute; reflexivity|].
  split; [vm_compute; reflexivity|]. split; reflexivity.
Qed.

(** C4 (as the code has it).  When no statement faults and every page
    query orders the matching rows alike, the pages
    [1 .. fetchInvoicesPages(q)] put end to end are the matching rows, each
    exactly once, in descending order of date; page [p] is taken at offset
    [(p - 1) * 6] with limit [6]. *)
Theorem pages_cover_the_matches_once :
  forall (xc : Run) (xp : Z -> Run) (db : Database) (query : string) (k : Console)
         (sorted : list (invoices.row * customers.row)),
    fault xc = None ->
    (forall p, fault (xp p) = None) ->
    (forall p, ordered_matches (xp p) db query = sorted) ->
    exists (n : Z) (pages : Z -> list InvoicesTable.t),
      fetchInvoicesPages xc db query k = (Normal n, k) /\
      (forall p, 1 <= p ->
                 fetchFilteredInvoices (xp p) db query p k = (Normal (pages p), k) /\
                 pages p = map select_invoices_table
                             (LIMIT 6 (OFFSET ((p - 1) * 6) sorted))) /\
      List.concat (map pages (page_numbers n)) = map select_invoices_table sorted /\
      Permutation sorted (counted_rows db query) /\
      date_descending (fun r => invoices.date (fst r)) sorted.
Proof.
  intros xc xp db query k sorted Hc Hp Hsame.
  exists ((COUNT (counted_rows db query) + 5) / 6),
         (fun p => page_slice (xp p) db query p).
  split; [now apply fetchInvoicesPages_ok|].
  split; [|split; [|split]].
  - intros p Hp1. split; [now apply fetchFilteredInvoices_ok|].
    unfold page_slice, LIMIT, OFFSET. rewrite Hsame.
    replace (Z.to_nat ((p - 1) * 6)) with (6 * Z.to_nat (p - 1))%nat by lia.
    reflexivity.
  - rewrite <- (Hsame 1).
    rewrite <- (page_slices_concat (xp 1) db query
                  ((COUNT (counted_rows db query) + 5) / 6))
      by apply page_count_bounds, COUNT_nonneg.
    f_equal. apply map_ext. intros p. unfold page_slice.
    now rewrite !Hsame.
  - rewrite <- (Hsame 1). apply ordered_matches_perm.
  - rewrite <- (Hsame 1).
    apply (ORDER_BY_date_desc (fun r : invoices.row * customers.row => invoices.date (fst r))).
Qed.

Lemma pages_cover_the_matches_once_witness :
  exists (n : Z) (pages : Z -> list InvoicesTable.t),
    fetchInvoicesPages stored_order seven_same_day "acme" [] = (Normal n, []) /\
    (forall p, 1 <= p ->
               fetchFilteredInvoices reverse_order seven_same_day "acme" p []
               = (Normal (pages p), []) /\
               pages p = map select_invoices_table
                           (LIMIT 6 (OFFSET ((p - 1) * 6)
                                       (ordered_matches reverse_order seven_same_day "acme")))) /\
    List.concat (map pages (page_numbers n))
    = map select_invoices_table (ordered_matches reverse_order seven_same_day "acme") /\
    Permutation (ordered_matches reverse_order seven_same_day "acme")
                (counted_rows seven_same_day "acme") /\
    date_descending (fun r => invoices.date (fst r))
                    (ordered_matches reverse_order seven_same_day "acme").
Proof.
  apply (pages_cover_the_matches_once stored_order (fun _ => reverse_order)
           seven_same_day "acme" []); reflexivity.
Defined.

(** C4 as stated fails: SQL leaves the order of rows of equal date to each
    execution.  With seven invoices of one day, page 1 taken in the stored
    order and page 2 in the reverse order show invoice 1 twice and invoice
    7 never, although both pages are ordered by date and the page count
    is 2. *)
Lemma pages_with_ties_repeat_a_row :
  fetchInvoicesPages stored_order seven_same_day EmptyString [] = (Normal 2, []) /\
  exists page1 page2,
    fetchFilteredInvoices stored_order seven_same_day EmptyString 1 [] = (Normal page1, []) /\
    fetchFilteredInvoices reverse_order seven_same_day EmptyString 2 [] = (Normal page2, []) /\
    In (select_invoices_table (invoice_of_acme "7" 70000, acme))
       (map select_invoices_table (counted_rows seven_same_day EmptyString)) /\
    ~ In (select_invoices_table (invoice_of_acme "7" 70000, acme)) (page1 ++ page2) /\
    ~ NoDup (page1 ++ page2).
Proof.
  split; [vm_compute; reflexivity|].
  eexists. eexists.
  split; [vm_compute; reflexivity|].
  split; [vm_compute; reflexivity|].
  split; [|split].
  - vm_compute. auto 10.
  - cbv [app]. intros H.
    repeat (destruct H as [H | H]; [discriminate H|]). exact H.
  - cbv [app]. intros H. apply NoDup_cons_iff in H as [H _].
    apply H. do 5 right. left. reflexivity.
Qed.

(** C8.  [fetchFilteredInvoices] passes the page number to the statement
    as it is: for a page number below [1] or above the page count that
    [fetchInvoicesPages] reports, it returns the empty list, whatever the
    execution, and never throws. *)
Theorem fetchFilteredInvoices_out_of_range :
  forall (xc x : Run) (db : Database) (query : string) (page n : Z) (k0 k : Console),
    fault xc = None ->
    fetchInvoicesPages xc db query k0 = (Normal n, k0) ->
    page < 1 \/ n < page ->
    exists k', fetchFilteredInvoices x db query page k = (Normal [], k').
Proof.
  intros xc x db query page n k0 k Hc Hn Hout.
  rewrite (fetchInvoicesPages_ok xc db query k0 Hc) in Hn. injection Hn as Hn.
  destruct (fault x) as [e|] eqn:Hx.
  - rewrite (fetchFilteredInvoices_fault x db query page e k Hx). eexists; reflexivity.
  - destruct (Z_lt_le_dec page 1) as [Hlow | Hge].
    + rewrite (fetchFilteredInvoices_before_first x db query page k Hx Hlow).
      eexists; reflexivity.
    + destruct Hout as [Hlow | Hhigh]; [lia|].
      exists k. rewrite (fetchFilteredInvoices_ok x db query page k Hx Hge).
      f_equal. unfold page_slice. rewrite skipn_all2; [now rewrite firstn_nil|].
      pose proof (ordered_matches_length x db query) as Hlen.
      pose proof (page_count_bounds _ (COUNT_nonneg (counted_rows db query))).
      unfold COUNT in *. lia.
Qed.

Lemma fetchFilteredInvoices_out_of_range_witness :
  exists k', fetchFilteredInvoices reverse_order seven_same_day "acme" 3 [] = (Normal [], k').
Proof.
  apply (fetchFilteredInvoices_out_of_range stored_order reverse_order seven_same_day
           "acme" 3 2 [] []).
  - reflexivity.
  - vm_compute. reflexivity.
  - right. lia.
Defined.

(* ------------------------------------------------------------------ *)
(** ** The search predicate *)

Lemma where_fetchFilteredInvoices_or (query : string) (i : invoices.row) (c : customers.row) :
  where_fetchFilteredInvoices query (i, c) = true <->
  ILIKE (customers.name c) (pattern_of query) = true \/
  ILIKE (customers.email c) (pattern_of query) = true \/
  ILIKE (int_text (invoices.amount i)) (pattern_of query) = true \/
  ILIKE (date_text (invoices.date i)) (pattern_of query) = true \/
  ILIKE (invoices.status i) (pattern_of query) = true.
Proof.
  unfold where_fetchFilteredInvoices. rewrite !orb_true_iff. tauto.
Qed.





(* ------------------------------------------------------------------ *)
(** ** The single-record lookup *)

(** C9.  When its statement executes without fault, [fetchInvoiceById]
    returns an invoice stored under the given id, its id, customer and
    status as stored and its amount divided by 100 as JavaScript divides
    (the binary64 quotient), if there is one, and [null] if there is
    none. *)
Theorem fetchInvoiceById_found_or_null :
  forall (x : Run) (db : Database) (id : string) (k : Console),
    fault x = None ->
    ((exists i, In i (tbl_invoices db) /\ invoices.id i = id) ->
     exists i v,
       In i (tbl_invoices db) /\ invoices.id i = id /\
       fetchInvoiceById x db id k = (Normal (Some v), k) /\
       InvoiceForm.id v = invoices.id i /\
       InvoiceForm.customer_id v = invoices.customer_id i /\
       InvoiceForm.status v = invoices.status i /\
       InvoiceForm.amount v
       = double_div (double_of_Z (invoices.amount i)) (double_of_Z 100)) /\
    ((forall i, In i (tbl_invoices db) -> invoices.id i <> id) ->
     fetchInvoiceById x db id k = (Normal None, k)).
Proof.
  intros x db id k Hx.
  unfold fetchInvoiceById, stmt_fetchInvoiceById. unfold_async. rewrite Hx.
  set (found := filter (fun i => (invoices.id i =? id)%string)
                  (arrange x invoices.row (tbl_invoices db))).
  assert (Hfound : forall i, In i found <-> In i (tbl_invoices db) /\ invoices.id i = id).
  { intros i. unfold found. rewrite filter_In, String.eqb_eq. split.
    - intros [Hi E]. split; [exact (Permutation_in i (arrange_perm x _ _) Hi) | exact E].
    - intros [Hi E]. split; [|exact E].
      exact (Permutation_in i (Permutation_sym (arrange_perm x _ _)) Hi). }
  split.
  - intros (i & Hi & E). destruct found as [|i0 rest] eqn:Ef.
    + exfalso. apply (proj2 (Hfound i)); auto.
    + destruct (proj1 (Hfound i0) (or_introl eq_refl)) as [Hi0 E0].
      exists i0. eexists. cbn [map].
      repeat split; try reflexivity; assumption.
  - intros Hnone. destruct found as [|i0 rest] eqn:Ef; [reflexivity|].
    destruct (proj1 (Hfound i0) (or_introl eq_refl)) as [Hi0 E0].
    exfalso. exact (Hnone i0 Hi0 E0).
Qed.

Lemma fetchInvoiceById_found_or_null_witness :
  ((exists i, In i (tbl_invoices seven_same_day) /\ invoices.id i = "1"%string) ->
   exists i v,
     In i (tbl_invoices seven_same_day) /\ invoices.id i = "1"%string /\
     fetchInvoiceById stored_order seven_same_day "1" [] = (Normal (Some v), []) /\
     InvoiceForm.id v = invoices.id i /\
     InvoiceForm.customer_id v = invoices.customer_id i /\
     InvoiceForm.status v = invoices.status i /\
     InvoiceForm.amount v
     = double_div (double_of_Z (invoices.amount i)) (double_of_Z 100)) /\
  ((forall i, In i (tbl_invoices seven_same_day) -> invoices.id i <> "1"%string) ->
   fetchInvoiceById stored_order seven_same_day "1" [] = (Normal None, [])).
Proof.
  apply (fetchInvoiceById_found_or_null stored_order seven_same_day "1" []).
  reflexivity.
Defined.

(** The stored amount [100000] reads exactly [1000] in the form. *)
Example fetchInvoiceById_hundred_thousand :
  exists v,
    fetchInvoiceById stored_order seven_same_day "1" [] = (Normal (Some v), []) /\
    InvoiceForm.amount v = double_of_Z 1000.
Proof. eexists. split; vm_compute; reflexivity. Qed.

(** The quotient is rounded: seven hundredths times one hundred is not
    seven. *)
Example double_div_is_rounded :
  double_mul (double_div (double_of_Z 7) (double_of_Z 100)) (double_of_Z 100)
  <> double_of_Z 7.
Proof. vm_compute. discriminate. Qed.

(* ------------------------------------------------------------------ *)
(** ** Faults and the summary *)

Section Defaults.

Variable formatCurrency : nullable -> string.

Lemma fetchCardData_ok (x1 x2 x3 : Run) (db : Database) (k : Console) :
  fault x1 = None -> fault x2 = None -> fault x3 = None ->
  fetchCardData formatCurrency x1 x2 x3 db k
  = (Normal
       (CardData.mk
          (COUNT (tbl_invoices db))
          (COUNT (tbl_customers db))
          (formatCurrency
             (nullish (SUM (map (case_status "paid") (arrange x3 _ (tbl_invoices db)))) 0))
          (formatCurrency
             (nullish (SUM (map (case_status "pending") (arrange x3 _ (tbl_invoices db)))) 0))),
     k).
Proof.
  intros H1 H2 H3.
  unfold fetchCardData, stmt_count_invoices, stmt_count_customers, stmt_totals.
  unfold_async. rewrite H1, H2, H3. cbn [count paid pending nullish Number].
  now rewrite (COUNT_perm _ _ (arrange_perm x1 _ (tbl_invoices db))),
              (COUNT_perm _ _ (arrange_perm x2 _ (tbl_customers db))).
Qed.



(** C5.  An operation whose statement faults with [e] returns its
    default (the empty list for the five listings, [1] for
    [fetchInvoicesPages], [null] for [fetchInvoiceById]) and adds to the
    console one line, its name with [e]; nothing is thrown.
    [fetchCardData], when any of its three statements faults, returns the
    zeroed summary (counts [0], totals the currency sign with [0]) and
    adds one line, its name with the error of a statement that faulted. *)
Theorem faults_yield_defaults :
  forall (x : Run) (db : Database) (query id : string) (page : Z)
         (e : Error) (k : Console),
    fault x = Some e ->
    fetchRevenue x db k
    = (Normal [], k ++ [("Database Error (fetchRevenue):"%string, e)]) /\
    fetchLatestInvoices formatCurrency x db k
    = (Normal [], k ++ [("Database Error (fetchLatestInvoices):"%string, e)]) /\
    fetchFilteredInvoices x db query page k
    = (Normal [], k ++ [("Database Error (fetchFilteredInvoices):"%string, e)]) /\
    fetchCustomers x db k
    = (Normal [], k ++ [("Database Error (fetchCustomers):"%string, e)]) /\
    fetchFilteredCustomers formatCurrency x db query k
    = (Normal [], k ++ [("Database Error (fetchFilteredCustomers):"%string, e)]) /\
    fetchInvoicesPages x db query k
    = (Normal 1, k ++ [("Database Error (fetchInvoicesPages):"%string, e)]) /\
    fetchInvoiceById x db id k
    = (Normal None, k ++ [("Database Error (fetchInvoiceById):"%string, e)]) /\
    (forall x1 x2 x3 : Run,
        x1 = x \/ x2 = x \/ x3 = x ->
        exists e',
          In (Some e') [fault x1; fault x2; fault x3] /\
          fetchCardData formatCurrency x1 x2 x3 db k
          = (Normal (CardData.mk 0 0 "₱0" "₱0"),
             k ++ [("Database Error (fetchCardData):"%string, e')])).
Proof.
  intros x db query id page e k Hx.
  repeat split.
  - unfold fetchRevenue. unfold_async. now rewrite Hx.
  - unfold fetchLatestInvoices. unfold_async. now rewrite Hx.
  - now apply fetchFilteredInvoices_fault.
  - unfold fetchCustomers. unfold_async. now rewrite Hx.
  - unfold fetchFilteredCustomers. unfold_async. now rewrite Hx.
  - unfold fetchInvoicesPages. unfold_async. now rewrite Hx.
  - unfold fetchInvoiceById. unfold_async. now rewrite Hx.
  - intros x1 x2 x3 Hany.
    unfold fetchCardData, stmt_count_invoices, stmt_count_customers. unfold_async.
    destruct (fault x1) as [e1|] eqn:H1.
    { exists e1. split; [now left | reflexivity]. }
    destruct (fault x2) as [e2|] eqn:H2.
    { exists e2. split; [right; now left | reflexivity]. }
    destruct (fault x3) as [e3|] eqn:H3.
    { exists e3. split; [right; right; now left | reflexivity]. }
    exfalso. destruct Hany as [-> | [-> | ->]]; congruence.
Qed.

End Defaults.

(* ------------------------------------------------------------------ *)
(** ** The customer search *)

Lemma customers_eqb_eq (a b : customers.row) : customers.eqb a b = true <-> a = b.
Proof.
  unfold customers.eqb. rewrite !andb_true_iff, !String.eqb_eq.
  destruct a, b; simpl. split.
  - intros [[[-> ->] ->] ->]. reflexivity.
  - intros E. injection E as -> -> -> ->. auto.
Qed.

Lemma distinct_In {K : Type} (eqb : K -> K -> bool) (l : list K) (k : K) :
  (forall a b, eqb a b = true <-> a = b) ->
  In k (distinct eqb l) <-> In k l.
Proof.
  intros Heq. induction l as [|h t IH]; simpl; [tauto|].
  rewrite filter_In, IH, negb_true_iff. split.
  - intros [E | [Hk _]]; auto.
  - intros [E | Hk]; [now left|].
    destruct (eqb k h) eqn:E; [left; symmetry; now apply Heq | right; auto].
Qed.

Lemma GROUP_BY_In {K R : Type} (eqb : K -> K -> bool) (key : R -> K) (l : list R)
      (k : K) (rows : list R) :
  (forall a b, eqb a b = true <-> a = b) ->
  In (k, rows) (GROUP_BY eqb key l) <->
  In k (map key l) /\ rows = filter (fun r => eqb (key r) k) l.
Proof.
  intros Heq. unfold GROUP_BY. rewrite in_map_iff. split.
  - intros (k' & E & Hk). injection E as -> <-.
    split; [now apply (distinct_In eqb _ _ Heq) | reflexivity].
  - intros [Hk ->]. exists k. split; [reflexivity | now apply (distinct_In eqb _ _ Heq)].
Qed.

Lemma LEFT_JOIN_In (cus : list customers.row) (inv : list invoices.row)
      (c : customers.row) (o : option invoices.row) :
  In (c, o) (LEFT_JOIN cus inv) ->
  In c cus /\
  match o with
  | Some i => In i inv /\ customers.id c = invoices.customer_id i
  | None => True
  end.
Proof.
  unfold LEFT_JOIN. rewrite in_flat_map. intros (c' & Hc' & H).
  destruct (filter _ inv) as [|i0 rest] eqn:E.
  - destruct H as [H | []]. injection H as -> <-. auto.
  - apply in_map_iff in H as (i & Hi & Hin). injection Hi as -> <-.
    split; [exact Hc'|]. rewrite <- E in Hin. apply filter_In in Hin as [Hin Hid].
    split; [exact Hin | now apply String.eqb_eq].
Qed.

Lemma LEFT_JOIN_covers (cus : list customers.row) (inv : list invoices.row)
      (c : customers.row) :
  In c cus -> exists o, In (c, o) (LEFT_JOIN cus inv).
Proof.
  intros Hc. unfold LEFT_JOIN.
  destruct (filter (fun i => (customers.id c =? invoices.customer_id i)%string) inv)
    as [|i0 rest] eqn:E.
  - exists None. apply in_flat_map. exists c. split; [exact Hc|]. rewrite E. now left.
  - exists (Some i0). apply in_flat_map. exists c. split; [exact Hc|]. rewrite E.
    now left.
Qed.

Lemma matching_customer_rows_keys (x : Run) (db : Database) (query : string)
      (c : customers.row) :
  In c (map fst (matching_customer_rows x db query)) <->
  In c (tbl_customers db) /\
  (ILIKE (customers.name c) (pattern_of query) = true \/
   ILIKE (customers.email c) (pattern_of query) = true).
Proof.
  unfold matching_customer_rows. rewrite in_map_iff. split.
  - intros ([c' o] & E & H). simpl in E. subst c'.
    apply filter_In in H as [H Hw].
    apply (Permutation_in _ (arrange_perm x _ _)) in H.
    apply LEFT_JOIN_In in H as [Hc _]. split; [exact Hc|].
    unfold where_fetchFilteredCustomers in Hw. simpl in Hw.
    now apply orb_true_iff in Hw.
  - intros [Hc Hw]. destruct (LEFT_JOIN_covers _ (tbl_invoices db) c Hc) as [o Ho].
    exists (c, o). split; [reflexivity|]. apply filter_In. split.
    + exact (Permutation_in _ (Permutation_sym (arrange_perm x _ _)) Ho).
    + unfold where_fetchFilteredCustomers. simpl. now apply orb_true_iff.
Qed.

Lemma SUM_of_zeros (l : list (option Z)) :
  l <> [] -> (forall v, In v l -> v = Some 0) -> SUM l = Some 0.
Proof.
  induction l as [|v t IH]; intros Hne Hall; [congruence|].
  rewrite (Hall v (or_introl eq_refl)). simpl.
  destruct t as [|w t']; [reflexivity|].
  rewrite IH; [reflexivity | discriminate | intros u Hu; apply Hall; now right].
Qed.

Lemma COUNT_col_of_nulls {V : Type} (l : list (option V)) :
  (forall v, In v l -> v = None) -> COUNT_col l = 0.
Proof.
  intros Hall. unfold COUNT_col.
  replace (filter _ l) with (@nil (option V)); [reflexivity|].
  symmetry. induction l as [|v t IH]; [reflexivity|]. simpl.
  rewrite (Hall v (or_introl eq_refl)). apply IH. intros u Hu. apply Hall. now right.
Qed.

Section CustomerSearch.

Variable formatCurrency : nullable -> string.

Lemma fetchFilteredCustomers_ok (x : Run) (db : Database) (query : string) (k : Console) :
  fault x = None ->
  fetchFilteredCustomers formatCurrency x db query k
  = (Normal
       (map (format_customer formatCurrency)
          (ORDER_BY (text_asc (collation db) CustomersTableType.name)
             (map aggregate_customer
                (GROUP_BY customers.eqb fst (matching_customer_rows x db query))))),
     k).
Proof.
  intros Hx. unfold fetchFilteredCustomers, stmt_fetchFilteredCustomers. unfold_async.
  now rewrite Hx.
Qed.

(** The rows returned are the formatted aggregates of the groups. *)
Lemma fetchFilteredCustomers_rows (x : Run) (db : Database) (query : string)
      (t : FormattedCustomersTable.t) :
  In t (map (format_customer formatCurrency)
          (ORDER_BY (text_asc (collation db) CustomersTableType.name)
             (map aggregate_customer
                (GROUP_BY customers.eqb fst (matching_customer_rows x db query))))) <->
  exists c,
    In c (map fst (matching_customer_rows x db query)) /\
    t = format_customer formatCurrency
          (aggregate_customer
             (c, filter (fun r => customers.eqb (fst r) c)
                   (matching_customer_rows x db query))).
Proof.
  rewrite in_map_iff. split.
  - intros (a & <- & Ha).
    apply (Permutation_in _ (ORDER_BY_perm _ _)) in Ha.
    apply in_map_iff in Ha as ([c rows] & <- & Hg).
    apply (GROUP_BY_In _ _ _ _ _ customers_eqb_eq) in Hg as [Hc ->].
    exists c. split; [exact Hc | reflexivity].
  - intros (c & Hc & ->). eexists. split; [reflexivity|].
    apply (Permutation_in _ (Permutation_sym (ORDER_BY_perm _ _))).
    apply in_map. apply (GROUP_BY_In _ _ _ _ _ customers_eqb_eq). split; [exact Hc | reflexivity].
Qed.

Lemma customer_of_aggregate (c : customers.row)
      (rows : list (customers.row * option invoices.row)) :
  customer_of (format_customer formatCurrency (aggregate_customer (c, rows))) = c.
Proof. destruct c. reflexivity. Qed.

Lemma shown_customers (x : Run) (db : Database) (query : string) (c : customers.row) :
  (exists t,
      In t (map (format_customer formatCurrency)
              (ORDER_BY (text_asc (collation db) CustomersTableType.name)
                 (map aggregate_customer
                    (GROUP_BY customers.eqb fst (matching_customer_rows x db query)))))
      /\ customer_of t = c) <->
  In c (tbl_customers db) /\
  (ILIKE (customers.name c) (pattern_of query) = true \/
   ILIKE (customers.email c) (pattern_of query) = true).
Proof.
  rewrite <- matching_customer_rows_keys. split.
  - intros (t & Ht & E). apply fetchFilteredCustomers_rows in Ht as (c' & Hc' & ->).
    rewrite customer_of_aggregate in E. subst c'. exact Hc'.
  - intros Hc. eexists. split.
    + apply fetchFilteredCustomers_rows. exists c. split; [exact Hc | reflexivity].
    + apply customer_of_aggregate.
Qed.


(** C6.  When the statement executes without fault, a customer of the
    table whose name or email [ILIKE] accepts and who has no invoice is
    shown, with [total_invoices = 0] and with both totals formatted from
    the number [0]; and every row shown under that customer's id has
    these three values. *)
Theorem customers_without_invoices_are_shown :
  forall (x : Run) (db : Database) (query : string) (k : Console) (c : customers.row),
    fault x = None ->
    In c (tbl_customers db) ->
    ILIKE (customers.name c) (pattern_of query) = true \/
    ILIKE (customers.email c) (pattern_of query) = true ->
    (forall i, In i (tbl_invoices db) -> invoices.customer_id i <> customers.id c) ->
    exists rows,
      fetchFilteredCustomers formatCurrency x db query k = (Normal rows, k) /\
      In (FormattedCustomersTable.mk
            (customers.id c) (customers.name c) (customers.email c)
            (customers.image_url c)
            0 (formatCurrency (Some 0)) (formatCurrency (Some 0)))
         rows /\
      (forall t, In t rows ->
                 FormattedCustomersTable.id t = customers.id c ->
                 FormattedCustomersTable.total_invoices t = 0 /\
                 FormattedCustomersTable.total_pending t = formatCurrency (Some 0) /\
                 FormattedCustomersTable.total_paid t = formatCurrency (Some 0)).
Proof.
  intros x db query k c Hx Hc Hw Hnone. eexists.
  split; [now apply fetchFilteredCustomers_ok|].
  assert (Hgroup : forall c',
             customers.id c' = customers.id c ->
             In c' (map fst (matching_customer_rows x db query)) ->
             aggregate_customer
               (c', filter (fun r => customers.eqb (fst r) c')
                      (matching_customer_rows x db query))
             = CustomersTableType.mk
                 (customers.id c') (customers.name c') (customers.email c')
                 (customers.image_url c') 0 (Some 0) (Some 0)).
  { intros c' Hid Hin.
    set (rows := filter (fun r => customers.eqb (fst r) c')
                   (matching_customer_rows x db query)).
    assert (Hnull : forall r, In r rows -> snd r = None).
    { intros [c'' o] Hr. unfold rows in Hr. apply filter_In in Hr as [Hr E].
      simpl in E. apply customers_eqb_eq in E. subst c''.
      unfold matching_customer_rows in Hr. apply filter_In in Hr as [Hr _].
      apply (Permutation_in _ (arrange_perm x _ _)) in Hr.
      apply LEFT_JOIN_In in Hr as [_ Hr]. destruct o as [i|]; [|reflexivity].
      destruct Hr as [Hi E]. exfalso. apply (Hnone i Hi). congruence. }
    assert (Hne : rows <> []).
    { apply in_map_iff in Hin as (r & E & Hr).
      assert (In r rows).
      { unfold rows. apply filter_In. split; [exact Hr|]. now apply customers_eqb_eq. }
      intros E'. rewrite E' in H. exact H. }
    unfold aggregate_customer. f_equal.
    - apply COUNT_col_of_nulls. intros v Hv.
      apply in_map_iff in Hv as (r & <- & Hr). now rewrite (Hnull r Hr).
    - apply SUM_of_zeros.
      + destruct rows; [congruence | discriminate].
      + intros v Hv. apply in_map_iff in Hv as (r & <- & Hr). now rewrite (Hnull r Hr).
    - apply SUM_of_zeros.
      + destruct rows; [congruence | discriminate].
      + intros v Hv. apply in_map_iff in Hv as (r & <- & Hr). now rewrite (Hnull r Hr). }
  split.
  - apply fetchFilteredCustomers_rows. exists c.
    assert (Hin : In c (map fst (matching_customer_rows x db query))).
    { apply matching_customer_rows_keys. auto. }
    split; [exact Hin|]. now rewrite (Hgroup c eq_refl Hin).
  - intros t Ht Hid. apply fetchFilteredCustomers_rows in Ht as (c' & Hc' & ->).
    assert (Hid' : customers.id c' = customers.id c) by (destruct c'; exact Hid).
    rewrite (Hgroup c' Hid' Hc'). repeat split; reflexivity.
Qed.

End CustomerSearch.

(* ------------------------------------------------------------------ *)
(** ** The properties at sample data *)


Lemma faults_yield_defaults_witness :
  fetchRevenue (faulting connection_lost) seven_same_day []
  = (Normal [], [] ++ [("Database Error (fetchRevenue):"%string, connection_lost)]) /\
  fetchLatestInvoices formatCurrency_peso (faulting connection_lost) seven_same_day []
  = (Normal [], [] ++ [("Database Error (fetchLatestInvoices):"%string, connection_lost)]) /\
  fetchFilteredInvoices (faulting connection_lost) seven_same_day "acme" 1 []
  = (Normal [], [] ++ [("Database Error (fetchFilteredInvoices):"%string, connection_lost)]) /\
  fetchCustomers (faulting connection_lost) seven_same_day []
  = (Normal [], [] ++ [("Database Error (fetchCustomers):"%string, connection_lost)]) /\
  fetchFilteredCustomers formatCurrency_peso (faulting connection_lost) seven_same_day "acme" []
  = (Normal [], [] ++ [("Database Error (fetchFilteredCustomers):"%string, connection_lost)]) /\
  fetchInvoicesPages (faulting connection_lost) seven_same_day "acme" []
  = (Normal 1, [] ++ [("Database Error (fetchInvoicesPages):"%string, connection_lost)]) /\
  fetchInvoiceById (faulting connection_lost) seven_same_day "1" []
  = (Normal None, [] ++ [("Database Error (fetchInvoiceById):"%string, connection_lost)]) /\
  (forall x1 x2 x3 : Run,
      x1 = faulting connection_lost \/ x2 = faulting connection_lost
      \/ x3 = faulting connection_lost ->
      exists e',
        In (Some e') [fault x1; fault x2; fault x3] /\
        fetchCardData formatCurrency_peso x1 x2 x3 seven_same_day []
        = (Normal (CardData.mk 0 0 "₱0" "₱0"),
           [] ++ [("Database Error (fetchCardData):"%string, e')])).
Proof.
  apply (faults_yield_defaults formatCurrency_peso (faulting connection_lost)
           seven_same_day "acme" "1" 1 connection_lost []).
  reflexivity.
Defined.

(** A fault of the second of the three statements of [fetchCardData]. *)
Example fetchCardData_second_statement_faults :
  fetchCardData formatCurrency_peso stored_order (faulting connection_lost) reverse_order
    seven_same_day []
  = (Normal (CardData.mk 0 0 "₱0" "₱0"),
     [("Database Error (fetchCardData):"%string, connection_lost)]).
Proof. vm_compute. reflexivity. Qed.

Lemma customers_without_invoices_are_shown_witness :
  exists rows,
    fetchFilteredCustomers formatCurrency_peso stored_order seven_same_day "BOLT" []
    = (Normal rows, []) /\
    In (FormattedCustomersTable.mk
          (customers.id bolt) (customers.name bolt) (customers.email bolt)
          (customers.image_url bolt)
          0 (formatCurrency_peso (Some 0)) (formatCurrency_peso (Some 0)))
       rows /\
    (forall t, In t rows ->
               FormattedCustomersTable.id t = customers.id bolt ->
               FormattedCustomersTable.total_invoices t = 0 /\
               FormattedCustomersTable.total_pending t = formatCurrency_peso (Some 0) /\
               FormattedCustomersTable.total_paid t = formatCurrency_peso (Some 0)).
Proof.
  apply (customers_without_invoices_are_shown formatCurrency_peso stored_order
           seven_same_day "BOLT" [] bolt).
  - reflexivity.
  - simpl. auto.
  - left. vm_compute. reflexivity.
  - intros i Hi. simpl in Hi.
    repeat (destruct Hi as [<- | Hi]; [discriminate|]). destruct Hi.
Defined.



(* ------------------------------------------------------------------ *)
(** ** Further properties of the operations *)

Section Returns.

Variable formatCurrency : nullable -> string.

(** No operation throws, whatever the execution and the arguments: each
    returns a value to its caller. *)
Theorem operations_always_return :
  forall (x x1 x2 x3 : Run) (db : Database) (query id : string) (page : Z) (k : Console),
    (exists v k', fetchRevenue x db k = (Normal v, k')) /\
    (exists v k', fetchLatestInvoices formatCurrency x db k = (Normal v, k')) /\
    (exists v k', fetchCardData formatCurrency x1 x2 x3 db k = (Normal v, k')) /\
    (exists v k', fetchFilteredInvoices x db query page k = (Normal v, k')) /\
    (exists v k', fetchInvoicesPages x db query k = (Normal v, k')) /\
    (exists v k', fetchInvoiceById x db id k = (Normal v, k')) /\
    (exists v k', fetchCustomers x db k = (Normal v, k')) /\
    (exists v k', fetchFilteredCustomers formatCurrency x db query k = (Normal v, k')).
Proof.
  intros x x1 x2 x3 db query id page k.
  repeat split.
  - unfold fetchRevenue, stmt_fetchRevenue. unfold_async.
    destruct (fault x); eexists; eexists; reflexivity.
  - unfold fetchLatestInvoices, stmt_fetchLatestInvoices. unfold_async.
    destruct (fault x); eexists; eexists; reflexivity.
  - unfold fetchCardData, stmt_count_invoices, stmt_count_customers, stmt_totals.
    unfold_async.
    destruct (fault x1), (fault x2), (fault x3); eexists; eexists; reflexivity.
  - destruct (fault x) as [e|] eqn:Hx.
    + rewrite (fetchFilteredInvoices_fault x db query page e k Hx).
      eexists; eexists; reflexivity.
    + destruct (Z_lt_le_dec page 1) as [Hlow | Hge].
      * rewrite (fetchFilteredInvoices_before_first x db query page k Hx Hlow).
        eexists; eexists; reflexivity.
      * rewrite (fetchFilteredInvoices_ok x db query page k Hx Hge).
        eexists; eexists; reflexivity.
  - unfold fetchInvoicesPages, stmt_fetchInvoicesPages. unfold_async.
    destruct (fault x); eexists; eexists; reflexivity.
  - unfold fetchInvoiceById, stmt_fetchInvoiceById. unfold_async.
    destruct (fault x); [eexists; eexists; reflexivity|].
    destruct (map select_form _); eexists; eexists; reflexivity.
  - unfold fetchCustomers, stmt_fetchCustomers. unfold_async.
    destruct (fault x); eexists; eexists; reflexivity.
  - unfold fetchFilteredCustomers, stmt_fetchFilteredCustomers. unfold_async.
    destruct (fault x); eexists; eexists; reflexivity.
Qed.

(** [fetchLatestInvoices] returns at most five rows; without fault they
    are the first five of the joined rows in descending order of date,
    with the amount formatted. *)
Theorem fetchLatestInvoices_at_most_five :
  forall (x : Run) (db : Database) (k : Console),
    fault x = None ->
    exists sorted,
      Permutation sorted (JOIN (tbl_invoices db) (tbl_customers db)) /\
      date_descending (fun r => invoices.date (fst r)) sorted /\
      fetchLatestInvoices formatCurrency x db k
      = (Normal
           (map (fun r =>
                   LatestInvoice.mk
                     (formatCurrency (Some (invoices.amount (fst r))))
                     (customers.name (snd r)) (customers.image_url (snd r))
                     (customers.email (snd r)) (invoices.id (fst r)))
              (firstn 5 sorted)),
         k) /\
      (List.length (firstn 5 sorted) <= 5)%nat.
Proof.
  intros x db k Hx.
  exists (ORDER_BY (date_desc (fun r => invoices.date (fst r)))
            (arrange x _ (JOIN (tbl_invoices db) (tbl_customers db)))).
  split; [|split; [|split]].
  - eapply Permutation_trans; [apply ORDER_BY_perm | apply arrange_perm].
  - apply (ORDER_BY_date_desc (fun r : invoices.row * customers.row => invoices.date (fst r))).
  - unfold fetchLatestInvoices, stmt_fetchLatestInvoices. unfold_async. rewrite Hx.
    unfold LIMIT. change (Z.to_nat 5) with 5%nat. rewrite map_map.
    f_equal. f_equal. apply map_ext. intros [i c]. reflexivity.
  - rewrite length_firstn. lia.
Qed.

End Returns.

(** A page of [fetchFilteredInvoices] holds at most six rows. *)
Theorem fetchFilteredInvoices_at_most_six :
  forall (x : Run) (db : Database) (query : string) (page : Z) (k : Console),
    exists rows k',
      fetchFilteredInvoices x db query page k = (Normal rows, k') /\
      (List.length rows <= 6)%nat.
Proof.
  intros x db query page k.
  destruct (fault x) as [e|] eqn:Hx.
  - rewrite (fetchFilteredInvoices_fault x db query page e k Hx).
    eexists; eexists; split; [reflexivity | simpl; lia].
  - destruct (Z_lt_le_dec page 1) as [Hlow | Hge].
    + rewrite (fetchFilteredInvoices_before_first x db query page k Hx Hlow).
      eexists; eexists; split; [reflexivity | simpl; lia].
    + rewrite (fetchFilteredInvoices_ok x db query page k Hx Hge).
      eexists; eexists; split; [reflexivity|].
      unfold page_slice. rewrite length_map, length_firstn. lia.
Qed.

Lemma fetchLatestInvoices_at_most_five_witness :
  exists sorted,
    Permutation sorted (JOIN (tbl_invoices seven_same_day) (tbl_customers seven_same_day)) /\
    date_descending (fun r => invoices.date (fst r)) sorted /\
    fetchLatestInvoices formatCurrency_peso reverse_order seven_same_day []
    = (Normal
         (map (fun r =>
                 LatestInvoice.mk
                   (formatCurrency_peso (Some (invoices.amount (fst r))))
                   (customers.name (snd r)) (customers.image_url (snd r))
                   (customers.email (snd r)) (invoices.id (fst r)))
            (firstn 5 sorted)),
       []) /\
    (List.length (firstn 5 sorted) <= 5)%nat.
Proof.
  apply (fetchLatestInvoices_at_most_five formatCurrency_peso reverse_order seven_same_day []).
  reflexivity.
Defined.

(** When no two rows that match the query bear the same date, paging is
    exact whatever the executions: every run of the page query returns
    the same page, and the pages [1 .. fetchInvoicesPages(q)], each taken
    by a run of its own, put end to end hold every matching row exactly
    once, in descending order of date. *)
Theorem distinct_dates_make_paging_exact :
  forall (xc : Run) (xp : Z -> Run) (db : Database) (query : string) (k : Console),
    fault xc = None ->
    (forall p, fault (xp p) = None) ->
    (forall a b, In a (counted_rows db query) -> In b (counted_rows db query) ->
                 invoices.date (fst a) = invoices.date (fst b) -> a = b) ->
    exists (n : Z) (pages : Z -> list InvoicesTable.t),
      fetchInvoicesPages xc db query k = (Normal n, k) /\
      (forall p, 1 <= p ->
                 fetchFilteredInvoices (xp p) db query p k = (Normal (pages p), k)) /\
      (forall p x', fault x' = None ->
                    fetchFilteredInvoices x' db query p k
                    = fetchFilteredInvoices (xp p) db query p k) /\
      Permutation (List.concat (map pages (page_numbers n)))
                  (map select_invoices_table (counted_rows db query)) /\
      date_descending InvoicesTable.date (List.concat (map pages (page_numbers n))).
Proof.
  intros xc xp db query k Hc Hp Hdistinct.
  pose proof (ordered_matches_distinct_dates db query Hdistinct) as Hsame.
  set (n := (COUNT (counted_rows db query) + 5) / 6).
  assert (Hn : COUNT (counted_rows db query) <= 6 * n).
  { apply page_count_bounds, COUNT_nonneg. }
  assert (Hslice : forall x x' p, page_slice x db query p = page_slice x' db query p).
  { intros x x' p. unfold page_slice. now rewrite (Hsame x x'). }
  assert (Hall : List.concat (map (fun p => page_slice (xp p) db query p) (page_numbers n))
                 = map select_invoices_table (ordered_matches xc db query)).
  { rewrite <- (page_slices_concat xc db query n Hn). f_equal.
    apply map_ext. intros p. apply Hslice. }
  exists n, (fun p => page_slice (xp p) db query p).
  split; [now apply fetchInvoicesPages_ok|].
  split; [intros p Hp1; now apply fetchFilteredInvoices_ok|].
  split; [|split].
  - intros p x' Hx'. destruct (Z_lt_le_dec p 1) as [Hlow | Hge].
    + now rewrite !fetchFilteredInvoices_before_first.
    + rewrite !fetchFilteredInvoices_ok by auto. now rewrite (Hslice x' (xp p)).
  - rewrite Hall. apply Permutation_map, ordered_matches_perm.
  - rewrite Hall. unfold date_descending.
    apply (sorted_map select_invoices_table
             (fun a b : invoices.row * customers.row =>
                date_leb (invoices.date (fst b)) (invoices.date (fst a)) = true)).
    + intros [i c] [i' c'] H. exact H.
    + apply (ORDER_BY_date_desc (fun r : invoices.row * customers.row => invoices.date (fst r))).
Qed.

Lemma distinct_dates_make_paging_exact_witness :
  exists (n : Z) (pages : Z -> list InvoicesTable.t),
    fetchInvoicesPages stored_order two_days "acme" [] = (Normal n, []) /\
    (forall p, 1 <= p ->
               fetchFilteredInvoices (if p =? 1 then stored_order else reverse_order)
                 two_days "acme" p []
               = (Normal (pages p), [])) /\
    (forall p x', fault x' = None ->
                  fetchFilteredInvoices x' two_days "acme" p []
                  = fetchFilteredInvoices (if p =? 1 then stored_order else reverse_order)
                      two_days "acme" p []) /\
    Permutation (List.concat (map pages (page_numbers n)))
                (map select_invoices_table (counted_rows two_days "acme")) /\
    date_descending InvoicesTable.date (List.concat (map pages (page_numbers n))).
Proof.
  apply (distinct_dates_make_paging_exact stored_order
           (fun p => if p =? 1 then stored_order else reverse_order) two_days "acme" []).
  - reflexivity.
  - intros p. destruct (p =? 1); reflexivity.
  - intros a b Ha Hb.
    assert (Hrows : counted_rows two_days "acme"
                    = [(invoices.mk "a" "c-acme" 1500 "paid" (mkDate 2024 1 5), acme);
                       (invoices.mk "b" "c-acme" 2500 "pending" (mkDate 2024 2 9), acme)])
      by (vm_compute; reflexivity).
    rewrite Hrows in Ha, Hb. simpl in Ha, Hb.
    destruct Ha as [<- | [<- | []]], Hb as [<- | [<- | []]]; simpl; intros E;
      try reflexivity; discriminate E.
Defined.

(* ------------------------------------------------------------------ *)
(** ** The listings in text order *)

Lemma string_compare_trans (a b c : string) :
  String.compare a b <> Gt -> String.compare b c <> Gt -> String.compare a c <> Gt.
Proof.
  revert b c. induction a as [|x a IH]; intros [|y b] [|z c]; simpl; try congruence.
  destruct (Ascii.compare x y) eqn:Hxy, (Ascii.compare y z) eqn:Hyz,
           (Ascii.compare x z) eqn:Hxz;
    try congruence; try (now apply IH);
    unfold Ascii.compare in *;
    rewrite ?N.compare_eq_iff, ?N.compare_lt_iff, ?N.compare_gt_iff in *; lia.
Qed.

Lemma string_leb_trans (a b c : string) :
  String.leb a b = true -> String.leb b c = true -> String.leb a c = true.
Proof.
  unfold String.leb. intros Hab Hbc.
  pose proof (string_compare_trans a b c) as H.
  destruct (String.compare a b), (String.compare b c), (String.compare a c);
    try reflexivity; try discriminate; exfalso; apply H; congruence.
Qed.

(** Rows sorted under a collation stand in its ascending order. *)
Lemma ORDER_BY_text_asc {A : Type} (leb : string -> string -> bool)
      (col : A -> string) (l : list A) :
  is_collation leb ->
  text_ascending leb col (ORDER_BY (text_asc leb col) l).
Proof.
  intros [Htotal Htrans]. unfold text_ascending.
  apply (ORDER_BY_sorted A (text_asc leb col)); unfold text_asc.
  - intros a b. apply Htotal.
  - intros a b c. apply Htrans.
Qed.

(** The bytewise order of text, and the order that sets letter case
    aside, are collations. *)
Lemma bytewise_is_collation : is_collation String.leb.
Proof. split; [exact String.leb_total | exact string_leb_trans]. Qed.

Lemma caseless_is_collation : is_collation caseless.
Proof.
  unfold caseless. split.
  - intros a b. apply String.leb_total.
  - intros a b c. apply string_leb_trans.
Qed.

(** When its statement executes without fault, [fetchRevenue] returns
    every row of the revenue table exactly once, in ascending order of
    the month under the collation of the database. *)
Theorem fetchRevenue_sorted_by_month :
  forall (x : Run) (db : Database) (k : Console),
    fault x = None ->
    is_collation (collation db) ->
    exists rows,
      fetchRevenue x db k = (Normal rows, k) /\
      Permutation rows (tbl_revenue db) /\
      text_ascending (collation db) revenue.month rows.
Proof.
  intros x db k Hx Hcoll. eexists. split; [|split].
  - unfold fetchRevenue, stmt_fetchRevenue. unfold_async. now rewrite Hx.
  - eapply Permutation_trans; [apply ORDER_BY_perm | apply arrange_perm].
  - now apply ORDER_BY_text_asc.
Qed.

Lemma fetchRevenue_sorted_by_month_witness :
  exists rows,
    fetchRevenue reverse_order four_months [] = (Normal rows, []) /\
    Permutation rows (tbl_revenue four_months) /\
    text_ascending (collation four_months) revenue.month rows.
Proof.
  apply (fetchRevenue_sorted_by_month reverse_order four_months []);
    [reflexivity | exact caseless_is_collation].
Defined.

(** The months are ordered as text, not by the calendar.  Under the
    bytewise collation February comes before January; under a collation
    that sets letter case aside, [apr] comes first whatever its case. *)
Example fetchRevenue_first_quarter :
  fetchRevenue stored_order first_quarter []
  = (Normal [revenue.mk "Feb" 1800; revenue.mk "Jan" 2000; revenue.mk "Mar" 2200], []).
Proof. vm_compute. reflexivity. Qed.

Example fetchRevenue_four_months :
  fetchRevenue stored_order four_months []
  = (Normal [revenue.mk "apr" 2500; revenue.mk "Feb" 1800; revenue.mk "jan" 2000;
             revenue.mk "Mar" 2200], []).
Proof. vm_compute. reflexivity. Qed.

(** When its statement executes without fault, [fetchCustomers] returns
    the id and name of every customer of the table exactly once, in
    ascending order of name under the collation of the database. *)
Theorem fetchCustomers_sorted_by_name :
  forall (x : Run) (db : Database) (k : Console),
    fault x = None ->
    is_collation (collation db) ->
    exists rows,
      fetchCustomers x db k = (Normal rows, k) /\
      Permutation rows
        (map (fun c => CustomerField.mk (customers.id c) (customers.name c))
           (tbl_customers db)) /\
      text_ascending (collation db) CustomerField.name rows.
Proof.
  intros x db k Hx Hcoll. eexists. split; [|split].
  - unfold fetchCustomers, stmt_fetchCustomers. unfold_async. now rewrite Hx.
  - apply Permutation_map.
    eapply Permutation_trans; [apply ORDER_BY_perm | apply arrange_perm].
  - unfold text_ascending.
    apply (sorted_map _ (fun a b => collation db (customers.name a) (customers.name b) = true)).
    + intros a b H. exact H.
    + now apply (ORDER_BY_text_asc (collation db) customers.name).
Qed.

Lemma fetchCustomers_sorted_by_name_witness :
  exists rows,
    fetchCustomers reverse_order seven_same_day [] = (Normal rows, []) /\
    Permutation rows
      (map (fun c => CustomerField.mk (customers.id c) (customers.name c))
         (tbl_customers seven_same_day)) /\
    text_ascending (collation seven_same_day) CustomerField.name rows.
Proof.
  apply (fetchCustomers_sorted_by_name reverse_order seven_same_day []);
    [reflexivity | exact bytewise_is_collation].
Defined.

(* ------------------------------------------------------------------ *)
(** ** The summary: totals by status, and the page count beside it *)

Lemma total_of_cons (wanted : string) (i : invoices.row) (l : list invoices.row) :
  total_of wanted (i :: l)
  = (if (invoices.status i =? wanted)%string then invoices.amount i else 0)
    + total_of wanted l.
Proof.
  unfold total_of. simpl. destruct (invoices.status i =? wanted)%string; reflexivity.
Qed.

Lemma total_of_perm (wanted : string) (l l' : list invoices.row) :
  Permutation l l' -> total_of wanted l = total_of wanted l'.
Proof.
  induction 1 as [| x l l' _ IH | x y l | l l' l'' _ IH1 _ IH2].
  - reflexivity.
  - rewrite !total_of_cons. lia.
  - rewrite !total_of_cons. lia.
  - congruence.
Qed.

Lemma SUM_case_status_value (wanted : string) (l : list invoices.row) :
  match SUM (map (case_status wanted) l) with Some s => s | None => 0 end
  = total_of wanted l.
Proof.
  induction l as [|i l IH]; [reflexivity|].
  rewrite total_of_cons. cbn [map]. unfold case_status at 1. cbn [SUM].
  now rewrite IH.
Qed.

Lemma SUM_case_status (wanted : string) (l : list invoices.row) :
  l <> [] -> SUM (map (case_status wanted) l) = Some (total_of wanted l).
Proof.
  destruct l as [|i l]; [congruence|]. intros _.
  rewrite total_of_cons. cbn [map]. unfold case_status at 1. cbn [SUM].
  now rewrite SUM_case_status_value.
Qed.

Lemma nullish_SUM_case_status (wanted : string) (l : list invoices.row) :
  nullish (SUM (map (case_status wanted) l)) 0 = Some (total_of wanted l).
Proof.
  destruct l as [|i l]; [reflexivity|].
  now rewrite SUM_case_status by discriminate.
Qed.

Lemma filter_all {R : Type} (f : R -> bool) (l : list R) :
  (forall r, In r l -> f r = true) -> filter f l = l.
Proof.
  induction l as [|r l IH]; intros H; [reflexivity|]. simpl.
  rewrite (H r (or_introl eq_refl)). f_equal. apply IH. intros r' Hr'. apply H. now right.
Qed.

Lemma JOIN_length (inv : list invoices.row) (cus : list customers.row) :
  (forall i, In i inv ->
             List.length
               (filter (fun c => (invoices.customer_id i =? customers.id c)%string) cus)
             = 1%nat) ->
  List.length (JOIN inv cus) = List.length inv.
Proof.
  unfold JOIN. induction inv as [|i inv IH]; intros H; [reflexivity|].
  cbn [flat_map]. rewrite length_app, length_map, (H i (or_introl eq_refl)).
  rewrite IH; [reflexivity|]. intros i' Hi'. apply H. now right.
Qed.

Lemma counted_rows_empty_query (db : Database) :
  counted_rows db EmptyString = JOIN (tbl_invoices db) (tbl_customers db).
Proof.
  unfold counted_rows. apply filter_all. intros [i c] _.
  apply (where_fetchFilteredInvoices_or EmptyString i c). left. apply ILIKE_empty_query.
Qed.

Section Summary.

Variable formatCurrency : nullable -> string.

(** When its three statements execute without fault, [fetchCardData]
    returns the number of invoices, the number of customers, and the sums
    of the amounts of the invoices whose status is [paid] and of those
    whose status is [pending], each sum formatted; the order in which the
    engine enumerates the rows plays no part, and an invoice of any other
    status enters neither sum. *)
Theorem fetchCardData_totals_by_status :
  forall (x1 x2 x3 : Run) (db : Database) (k : Console),
    fault x1 = None -> fault x2 = None -> fault x3 = None ->
    fetchCardData formatCurrency x1 x2 x3 db k
    = (Normal
         (CardData.mk
            (COUNT (tbl_invoices db))
            (COUNT (tbl_customers db))
            (formatCurrency (Some (total_of "paid" (tbl_invoices db))))
            (formatCurrency (Some (total_of "pending" (tbl_invoices db))))),
       k).
Proof.
  intros x1 x2 x3 db k H1 H2 H3.
  rewrite (fetchCardData_ok formatCurrency x1 x2 x3 db k H1 H2 H3).
  rewrite !nullish_SUM_case_status.
  now rewrite !(total_of_perm _ _ _ (arrange_perm x3 _ (tbl_invoices db))).
Qed.

(** When every invoice names exactly one customer of the table, the page
    count of the empty query is the ceiling of the number of invoices
    that [fetchCardData] reports, over six. *)
Theorem page_count_of_all_invoices :
  forall (x x1 x2 x3 : Run) (db : Database) (k : Console),
    fault x = None -> fault x1 = None -> fault x2 = None -> fault x3 = None ->
    (forall i, In i (tbl_invoices db) ->
               List.length
                 (filter (fun c => (invoices.customer_id i =? customers.id c)%string)
                    (tbl_customers db))
               = 1%nat) ->
    exists card pages,
      fetchCardData formatCurrency x1 x2 x3 db k = (Normal card, k) /\
      fetchInvoicesPages x db EmptyString k = (Normal pages, k) /\
      6 * (pages - 1) < CardData.numberOfInvoices card <= 6 * pages.
Proof.
  intros x x1 x2 x3 db k Hx H1 H2 H3 Hkey.
  eexists. eexists.
  split; [now apply fetchCardData_ok|].
  split; [now apply fetchInvoicesPages_ok|].
  cbn [CardData.numberOfInvoices].
  rewrite counted_rows_empty_query. unfold COUNT at 1 4.
  rewrite (JOIN_length _ _ Hkey).
  apply (page_count_bounds (COUNT (tbl_invoices db))), COUNT_nonneg.
Qed.

End Summary.

Lemma fetchCardData_totals_by_status_witness :
  fetchCardData formatCurrency_peso stored_order reverse_order reverse_order two_days []
  = (Normal
       (CardData.mk
          (COUNT (tbl_invoices two_days))
          (COUNT (tbl_customers two_days))
          (formatCurrency_peso (Some (total_of "paid" (tbl_invoices two_days))))
          (formatCurrency_peso (Some (total_of "pending" (tbl_invoices two_days))))),
     []).
Proof.
  apply (fetchCardData_totals_by_status formatCurrency_peso
           stored_order reverse_order reverse_order two_days []); reflexivity.
Defined.

Lemma page_count_of_all_invoices_witness :
  exists card pages,
    fetchCardData formatCurrency_peso stored_order stored_order stored_order seven_same_day []
    = (Normal card, []) /\
    fetchInvoicesPages reverse_order seven_same_day EmptyString [] = (Normal pages, []) /\
    6 * (pages - 1) < CardData.numberOfInvoices card <= 6 * pages.
Proof.
  apply (page_count_of_all_invoices formatCurrency_peso reverse_order
           stored_order stored_order stored_order seven_same_day []);
    try reflexivity.
  intros i Hi. simpl in Hi.
  repeat (destruct Hi as [<- | Hi]; [reflexivity|]). destruct Hi.
Defined.

(** An invoice whose customer is missing is counted by [fetchCardData]
    and by no page: two invoices, one page row. *)
Example orphan_invoices_are_not_listed :
  fetchCardData formatCurrency_peso stored_order stored_order stored_order with_orphan []
  = (Normal (CardData.mk 2 2 "₱114.00" "₱0.00"), []) /\
  COUNT (counted_rows with_orphan EmptyString) = 1.
Proof. split; vm_compute; reflexivity. Qed.

(* ------------------------------------------------------------------ *)
(** ** One page of the invoice search *)

Lemma sorted_skipn {R : Type} (le : R -> R -> Prop) (n : nat) (l : list R) :
  StronglySorted le l -> StronglySorted le (skipn n l).
Proof.
  revert l. induction n as [|n IH]; intros l H; [exact H|].
  destruct l as [|a l]; [exact H|]. simpl. apply IH.
  now apply StronglySorted_inv in H.
Qed.

Lemma sorted_firstn {R : Type} (le : R -> R -> Prop) (n : nat) (l : list R) :
  StronglySorted le l -> StronglySorted le (firstn n l).
Proof.
  revert l. induction n as [|n IH]; intros l H; [constructor|].
  destruct l as [|a l]; [constructor|]. simpl.
  apply StronglySorted_inv in H as [Hl Ha]. constructor; [now apply IH|].
  apply Forall_forall. intros b Hb. rewrite Forall_forall in Ha.
  apply Ha. exact (firstn_subset n l b Hb).
Qed.

Lemma page_slice_ordered (x : Run) (db : Database) (query : string) (p : Z) :
  date_descending InvoicesTable.date (page_slice x db query p).
Proof.
  unfold date_descending, page_slice.
  apply (sorted_map select_invoices_table
           (fun a b : invoices.row * customers.row =>
              date_leb (invoices.date (fst b)) (invoices.date (fst a)) = true)).
  - intros [i c] [i' c'] H. exact H.
  - apply sorted_firstn, sorted_skipn.
    apply (ORDER_BY_date_desc (fun r : invoices.row * customers.row => invoices.date (fst r))).
Qed.

Lemma page_slice_matches (x : Run) (db : Database) (query : string) (p : Z)
      (t : InvoicesTable.t) :
  In t (page_slice x db query p) ->
  In t (map select_invoices_table (counted_rows db query)).
Proof.
  unfold page_slice. intros H. apply in_map_iff in H as (r & <- & Hr).
  apply in_map. apply firstn_subset, skipn_subset in Hr.
  exact (Permutation_in r (ordered_matches_perm x db query) Hr).
Qed.

(** Whatever the execution and the page number, the rows that
    [fetchFilteredInvoices] returns stand in descending order of date and
    each of them is a row that matches the query. *)
Theorem fetchFilteredInvoices_page_is_ordered :
  forall (x : Run) (db : Database) (query : string) (page : Z) (k : Console),
    exists rows k',
      fetchFilteredInvoices x db query page k = (Normal rows, k') /\
      date_descending InvoicesTable.date rows /\
      (forall t, In t rows -> In t (map select_invoices_table (counted_rows db query))).
Proof.
  intros x db query page k.
  destruct (fault x) as [e|] eqn:Hx.
  - rewrite (fetchFilteredInvoices_fault x db query page e k Hx).
    eexists; eexists. split; [reflexivity|]. split; [constructor | intros t []].
  - destruct (Z_lt_le_dec page 1) as [Hlow | Hge].
    + rewrite (fetchFilteredInvoices_before_first x db query page k Hx Hlow).
      eexists; eexists. split; [reflexivity|]. split; [constructor | intros t []].
    + rewrite (fetchFilteredInvoices_ok x db query page k Hx Hge).
      eexists; eexists. split; [reflexivity|].
      split; [apply page_slice_ordered | apply page_slice_matches].
Qed.

Lemma page_slice_length (x : Run) (db : Database) (query : string) (p : Z) :
  1 <= p ->
  Z.of_nat (List.length (page_slice x db query p))
  = Z.max 0 (Z.min 6 (COUNT (counted_rows db query) - 6 * (p - 1))).
Proof.
  intros Hp. unfold page_slice.
  rewrite length_map, length_firstn, length_skipn.
  pose proof (ordered_matches_length x db query) as Hlen. unfold COUNT in *. lia.
Qed.

(** Without fault, page [p >= 1] holds [min 6 (count - 6 * (p - 1))] rows
    (none when that is negative), where [count] is the number of matching
    rows: every page before the last one that [fetchInvoicesPages]
    reports is full, and the last one is not empty. *)
Theorem fetchFilteredInvoices_page_size :
  forall (xc x : Run) (db : Database) (query : string) (page : Z) (k : Console),
    fault xc = None -> fault x = None -> 1 <= page ->
    exists n rows,
      fetchInvoicesPages xc db query k = (Normal n, k) /\
      fetchFilteredInvoices x db query page k = (Normal rows, k) /\
      Z.of_nat (List.length rows)
      = Z.max 0 (Z.min 6 (COUNT (counted_rows db query) - 6 * (page - 1))) /\
      (page < n -> List.length rows = 6%nat) /\
      (page = n -> (1 <= List.length rows)%nat).
Proof.
  intros xc x db query page k Hc Hx Hp.
  exists ((COUNT (counted_rows db query) + 5) / 6), (page_slice x db query page).
  split; [now apply fetchInvoicesPages_ok|].
  split; [now apply fetchFilteredInvoices_ok|].
  pose proof (page_slice_length x db query page Hp) as Hlen.
  pose proof (page_count_bounds _ (COUNT_nonneg (counted_rows db query))) as Hb.
  split; [exact Hlen|]. split; intros; lia.
Qed.

Lemma fetchFilteredInvoices_page_size_witness :
  exists n rows,
    fetchInvoicesPages stored_order seven_same_day "acme" [] = (Normal n, []) /\
    fetchFilteredInvoices reverse_order seven_same_day "acme" 2 [] = (Normal rows, []) /\
    Z.of_nat (List.length rows)
    = Z.max 0 (Z.min 6 (COUNT (counted_rows seven_same_day "acme") - 6 * (2 - 1))) /\
    (2 < n -> List.length rows = 6%nat) /\
    (2 = n -> (1 <= List.length rows)%nat).
Proof.
  apply (fetchFilteredInvoices_page_size stored_order reverse_order seven_same_day
           "acme" 2 []); [reflexivity | reflexivity | lia].
Defined.

(* ------------------------------------------------------------------ *)
(** ** How the query is read *)

Lemma ILIKE_query_case (q q' s : string) :
  lower (chars q) = lower (chars q') ->
  ILIKE s (pattern_of q) = ILIKE s (pattern_of q').
Proof.
  intros H. unfold ILIKE. now rewrite !lower_pattern, H.
Qed.

Lemma like_all_percent (p s : list ascii) :
  p <> [] -> (forall c, In c p -> c = "%"%char) -> like p s = true.
Proof.
  revert s. induction p as [|c p IH]; intros s Hne Hall; [congruence|].
  rewrite (Hall c (or_introl eq_refl)).
  destruct p as [|d p]; [apply like_percent_only|].
  apply like_percent. exists [], s. split; [reflexivity|].
  apply IH; [discriminate | intros c' Hc'; apply Hall; now right].
Qed.

Lemma ILIKE_all_percent (q s : string) :
  (forall c, In c (chars q) -> c = "%"%char) -> ILIKE s (pattern_of q) = true.
Proof.
  intros Hall. unfold ILIKE. rewrite lower_pattern.
  apply like_all_percent; [discriminate|].
  intros c [<- | Hc]; [reflexivity|].
  apply in_app_or in Hc as [Hc | [<- | []]]; [|reflexivity].
  unfold lower in Hc. apply in_map_iff in Hc as (c' & <- & Hc').
  now rewrite (Hall c' Hc').
Qed.

Lemma Substring_trans (a b c : list ascii) :
  Substring a b -> Substring b c -> Substring a c.
Proof.
  intros (p1 & s1 & ->) (p2 & s2 & ->).
  exists (p2 ++ p1), (s1 ++ s2). now rewrite <- !app_assoc.
Qed.

Lemma plain_substring (a b : list ascii) :
  Substring a b -> plain b = true -> plain a = true.
Proof.
  intros (pre & post & ->). unfold plain. rewrite !forallb_app, !andb_true_iff. tauto.
Qed.

Lemma ILIKE_refined (q q' s : string) :
  plain (chars q) = true -> ci_substring q' q ->
  ILIKE s (pattern_of q) = true -> ILIKE s (pattern_of q') = true.
Proof.
  intros Hq Hsub H.
  assert (Hq' : plain (chars q') = true).
  { rewrite <- plain_lower. apply (plain_substring _ _ Hsub). now rewrite plain_lower. }
  apply (ILIKE_plain q' s Hq'). apply (ILIKE_plain q s Hq) in H.
  exact (Substring_trans _ _ _ Hsub H).
Qed.

Lemma filter_length_le {R : Type} (f g : R -> bool) (l : list R) :
  (forall r, f r = true -> g r = true) ->
  (List.length (filter f l) <= List.length (filter g l))%nat.
Proof.
  intros H. induction l as [|r l IH]; [simpl; lia|]. simpl.
  destruct (f r) eqn:F.
  - rewrite (H r F). simpl. lia.
  - destruct (g r); simpl; lia.
Qed.

Section QueryReading.

Variable formatCurrency : nullable -> string.

(** The letter case of the query plays no part: two queries that differ
    in letter case only give the same pages, the same page count and the
    same customers, in every execution. *)
Theorem search_ignores_the_case_of_the_query :
  forall (x : Run) (db : Database) (q q' : string) (page : Z) (k : Console),
    lower (chars q) = lower (chars q') ->
    fetchFilteredInvoices x db q page k = fetchFilteredInvoices x db q' page k /\
    fetchInvoicesPages x db q k = fetchInvoicesPages x db q' k /\
    fetchFilteredCustomers formatCurrency x db q k
    = fetchFilteredCustomers formatCurrency x db q' k.
Proof.
  intros x db q q' page k H.
  assert (Hi : forall r, where_fetchFilteredInvoices q r = where_fetchFilteredInvoices q' r).
  { intros [i c]. unfold where_fetchFilteredInvoices.
    now rewrite !(ILIKE_query_case q q' _ H). }
  assert (Hc : forall r, where_fetchFilteredCustomers q r = where_fetchFilteredCustomers q' r).
  { intros r. unfold where_fetchFilteredCustomers.
    now rewrite !(ILIKE_query_case q q' _ H). }
  split; [|split].
  - unfold fetchFilteredInvoices, stmt_fetchFilteredInvoices. unfold_async.
    now rewrite (filter_ext _ _ Hi).
  - unfold fetchInvoicesPages, stmt_fetchInvoicesPages. unfold_async.
    now rewrite (filter_ext _ _ Hi).
  - unfold fetchFilteredCustomers, stmt_fetchFilteredCustomers. unfold_async.
    now rewrite (filter_ext _ _ Hc).
Qed.

(** A query made of [%] characters only (the empty query among them)
    matches every invoice row and every customer: without fault the page
    count is that of all joined rows and every customer of the table is
    shown. *)
Theorem percent_queries_match_everything :
  forall (x x' : Run) (db : Database) (q : string) (k : Console),
    (forall c, In c (chars q) -> c = "%"%char) ->
    fault x = None -> fault x' = None ->
    counted_rows db q = JOIN (tbl_invoices db) (tbl_customers db) /\
    fetchInvoicesPages x db q k
    = (Normal ((COUNT (JOIN (tbl_invoices db) (tbl_customers db)) + 5) / 6), k) /\
    exists rows,
      fetchFilteredCustomers formatCurrency x' db q k = (Normal rows, k) /\
      forall c, In c (tbl_customers db) -> exists t, In t rows /\ customer_of t = c.
Proof.
  intros x x' db q k Hq Hx Hx'.
  assert (Hall : counted_rows db q = JOIN (tbl_invoices db) (tbl_customers db)).
  { unfold counted_rows. apply filter_all. intros [i c] _.
    apply (where_fetchFilteredInvoices_or q i c). left. now apply ILIKE_all_percent. }
  split; [exact Hall|]. split.
  - rewrite (fetchInvoicesPages_ok x db q k Hx). now rewrite Hall.
  - eexists. split; [now apply fetchFilteredCustomers_ok|].
    intros c Hc. apply shown_customers. split; [exact Hc|].
    left. now apply ILIKE_all_percent.
Qed.

End QueryReading.

(** Lengthening a query without [%], [_] and backslash never adds a row:
    when [q'] occurs in [q], letter case aside, every row that matches [q]
    matches [q'], and the page count for [q] is at most that for [q']. *)
Theorem refining_the_query_narrows_the_search :
  forall (x x' : Run) (db : Database) (q q' : string) (k : Console),
    fault x = None -> fault x' = None ->
    plain (chars q) = true -> ci_substring q' q ->
    (forall r, where_fetchFilteredInvoices q r = true ->
               where_fetchFilteredInvoices q' r = true) /\
    exists n n',
      fetchInvoicesPages x db q k = (Normal n, k) /\
      fetchInvoicesPages x' db q' k = (Normal n', k) /\
      n <= n'.
Proof.
  intros x x' db q q' k Hx Hx' Hq Hsub.
  assert (Himp : forall r, where_fetchFilteredInvoices q r = true ->
                           where_fetchFilteredInvoices q' r = true).
  { intros [i c]. rewrite !where_fetchFilteredInvoices_or.
    intros [H | [H | [H | [H | H]]]];
      apply (ILIKE_refined q q' _ Hq Hsub) in H; tauto. }
  split; [exact Himp|].
  eexists. eexists.
  split; [now apply fetchInvoicesPages_ok|].
  split; [now apply fetchInvoicesPages_ok|].
  apply Z.div_le_mono; [lia|].
  unfold counted_rows, COUNT.
  pose proof (filter_length_le (where_fetchInvoicesPages q) (where_fetchInvoicesPages q')
                (JOIN (tbl_invoices db) (tbl_customers db)) Himp).
  lia.
Qed.

Lemma search_ignores_the_case_of_the_query_witness :
  fetchFilteredInvoices stored_order seven_same_day "ACME" 1 []
  = fetchFilteredInvoices stored_order seven_same_day "acme" 1 [] /\
  fetchInvoicesPages stored_order seven_same_day "ACME" []
  = fetchInvoicesPages stored_order seven_same_day "acme" [] /\
  fetchFilteredCustomers formatCurrency_peso stored_order seven_same_day "ACME" []
  = fetchFilteredCustomers formatCurrency_peso stored_order seven_same_day "acme" [].
Proof.
  apply (search_ignores_the_case_of_the_query formatCurrency_peso stored_order
           seven_same_day "ACME" "acme" 1 []).
  reflexivity.
Defined.

Lemma percent_queries_match_everything_witness :
  counted_rows seven_same_day "%%"
  = JOIN (tbl_invoices seven_same_day) (tbl_customers seven_same_day) /\
  fetchInvoicesPages stored_order seven_same_day "%%" []
  = (Normal ((COUNT (JOIN (tbl_invoices seven_same_day) (tbl_customers seven_same_day)) + 5) / 6),
     []) /\
  exists rows,
    fetchFilteredCustomers formatCurrency_peso reverse_order seven_same_day "%%" []
    = (Normal rows, []) /\
    forall c, In c (tbl_customers seven_same_day) -> exists t, In t rows /\ customer_of t = c.
Proof.
  apply (percent_queries_match_everything formatCurrency_peso stored_order reverse_order
           seven_same_day "%%" []); [|reflexivity|reflexivity].
  intros c Hc. simpl in Hc. destruct Hc as [<- | [<- | []]]; reflexivity.
Defined.

Lemma refining_the_query_narrows_the_search_witness :
  (forall r, where_fetchFilteredInvoices "acme.io" r = true ->
             where_fetchFilteredInvoices "ACME" r = true) /\
  exists n n',
    fetchInvoicesPages stored_order seven_same_day "acme.io" [] = (Normal n, []) /\
    fetchInvoicesPages reverse_order seven_same_day "ACME" [] = (Normal n', []) /\
    n <= n'.
Proof.
  apply (refining_the_query_narrows_the_search stored_order reverse_order
           seven_same_day "acme.io" "ACME" []); try reflexivity.
  unfold ci_substring. apply substringb_spec. vm_compute. reflexivity.
Defined.

(* ------------------------------------------------------------------ *)
(** ** The customer search: one row per customer, and its aggregates *)

Lemma distinct_NoDup {K : Type} (eqb : K -> K -> bool) (l : list K) :
  (forall a b, eqb a b = true <-> a = b) -> NoDup (distinct eqb l).
Proof.
  intros Heq. induction l as [|k l IH]; simpl; constructor.
  - rewrite filter_In, negb_true_iff. intros [_ H].
    assert (eqb k k = true) by now apply Heq. congruence.
  - now apply NoDup_filter.
Qed.

Lemma SUM_perm (l l' : list (option Z)) : Permutation l l' -> SUM l = SUM l'.
Proof.
  induction 1 as [| x l l' _ IH | x y l | l l' l'' _ IH1 _ IH2].
  - reflexivity.
  - destruct x; simpl; now rewrite IH.
  - destruct x, y; simpl; try reflexivity. f_equal. destruct (SUM l); lia.
  - congruence.
Qed.

(** The rows of the left join that belong to one customer. *)
Lemma LEFT_JOIN_of_customer (cus : list customers.row) (inv : list invoices.row)
      (c : customers.row) :
  NoDup cus -> In c cus ->
  filter (fun r => customers.eqb (fst r) c) (LEFT_JOIN cus inv)
  = match invoices_of c inv with
    | [] => [(c, None)]
    | matched => map (fun i => (c, Some i)) matched
    end.
Proof.
  unfold LEFT_JOIN, invoices_of.
  assert (Hblock : forall c0,
             filter (fun r : customers.row * option invoices.row => customers.eqb (fst r) c)
               (match filter (fun i => (customers.id c0 =? invoices.customer_id i)%string) inv with
                | [] => [(c0, None)]
                | matched => map (fun i => (c0, Some i)) matched
                end)
             = if customers.eqb c0 c
               then match filter (fun i => (customers.id c0 =? invoices.customer_id i)%string) inv with
                    | [] => [(c0, None)]
                    | matched => map (fun i => (c0, Some i)) matched
                    end
               else []).
  { intros c0.
    destruct (filter (fun i => (customers.id c0 =? invoices.customer_id i)%string) inv)
      as [|i0 rest].
    - simpl. destruct (customers.eqb c0 c); reflexivity.
    - destruct (customers.eqb c0 c) eqn:E.
      + apply filter_all. intros r Hr. apply in_map_iff in Hr as (i & <- & _). exact E.
      + generalize (i0 :: rest). intros l. induction l as [|i l IH]; [reflexivity|].
        simpl. now rewrite E. }
  assert (Hout : forall l, ~ In c l ->
             filter (fun r : customers.row * option invoices.row => customers.eqb (fst r) c)
               (flat_map
                  (fun c0 =>
                     match filter (fun i => (customers.id c0 =? invoices.customer_id i)%string) inv with
                     | [] => [(c0, None)]
                     | matched => map (fun i => (c0, Some i)) matched
                     end) l)
             = []).
  { induction l as [|c0 l IH]; intros Hnot; [reflexivity|].
    cbn [flat_map]. rewrite filter_app, Hblock.
    destruct (customers.eqb c0 c) eqn:E.
    - exfalso. apply Hnot. left. now apply customers_eqb_eq.
    - simpl. apply IH. intros H. apply Hnot. now right. }
  induction cus as [|c0 cus IH]; intros Hnd Hin; [destruct Hin|].
  inversion Hnd as [|? ? Hc0 Hnd']; subst.
  cbn [flat_map]. rewrite filter_app, Hblock.
  destruct Hin as [-> | Hin].
  - assert (E : customers.eqb c c = true) by now apply customers_eqb_eq.
    rewrite E, (Hout cus Hc0). apply app_nil_r.
  - destruct (customers.eqb c0 c) eqn:E.
    + apply customers_eqb_eq in E. subst c0. contradiction.
    + simpl. now apply IH.
Qed.

Lemma group_of_customer (x : Run) (db : Database) (query : string) (c : customers.row) :
  NoDup (tbl_customers db) ->
  In c (map fst (matching_customer_rows x db query)) ->
  Permutation
    (filter (fun r => customers.eqb (fst r) c) (matching_customer_rows x db query))
    (match invoices_of c (tbl_invoices db) with
     | [] => [(c, None)]
     | matched => map (fun i => (c, Some i)) matched
     end).
Proof.
  intros Hnd Hc.
  pose proof (proj1 (matching_customer_rows_keys x db query c) Hc) as [Hin Hw].
  rewrite <- (LEFT_JOIN_of_customer _ _ c Hnd Hin).
  unfold matching_customer_rows.
  eapply Permutation_trans.
  - apply filter_perm, filter_perm, arrange_perm.
  - set (l := LEFT_JOIN (tbl_customers db) (tbl_invoices db)).
    assert (E : filter (fun r => customers.eqb (fst r) c)
                  (filter (where_fetchFilteredCustomers query) l)
                = filter (fun r => customers.eqb (fst r) c) l).
    { induction l as [|r l IH]; [reflexivity|]. simpl.
      destruct (customers.eqb (fst r) c) eqn:E.
      - apply customers_eqb_eq in E.
        assert (W : where_fetchFilteredCustomers query r = true).
        { unfold where_fetchFilteredCustomers. rewrite E. now apply orb_true_iff. }
        rewrite W. simpl. apply customers_eqb_eq in E. rewrite E. now rewrite IH.
      - destruct (where_fetchFilteredCustomers query r); simpl; [rewrite E|]; exact IH. }
    rewrite E. apply Permutation_refl.
Qed.

Lemma aggregate_perm (c : customers.row)
      (rows rows' : list (customers.row * option invoices.row)) :
  Permutation rows rows' ->
  aggregate_customer (c, rows) = aggregate_customer (c, rows').
Proof.
  intros P. unfold aggregate_customer. f_equal.
  - unfold COUNT_col. apply COUNT_perm, filter_perm, Permutation_map, P.
  - apply SUM_perm, Permutation_map, P.
  - apply SUM_perm, Permutation_map, P.
Qed.

Lemma aggregate_of_customer (c : customers.row) (inv : list invoices.row) :
  aggregate_customer
    (c, match invoices_of c inv with
        | [] => [(c, None)]
        | matched => map (fun i => (c, Some i)) matched
        end)
  = CustomersTableType.mk
      (customers.id c) (customers.name c) (customers.email c) (customers.image_url c)
      (COUNT (invoices_of c inv))
      (Some (total_of "pending" (invoices_of c inv)))
      (Some (total_of "paid" (invoices_of c inv))).
Proof.
  destruct (invoices_of c inv) as [|i0 rest] eqn:E; [reflexivity|].
  unfold aggregate_customer. rewrite !map_map. cbn [snd option_map case_status_left].
  f_equal.
  - unfold COUNT_col. rewrite filter_all.
    + unfold COUNT. now rewrite length_map.
    + intros v Hv. apply in_map_iff in Hv as (i & <- & _). reflexivity.
  - apply SUM_case_status. discriminate.
  - apply SUM_case_status. discriminate.
Qed.

Section CustomerRows.

Variable formatCurrency : nullable -> string.

(** When the statement executes without fault, the listing of
    [fetchFilteredCustomers] shows no customer twice, however many
    invoices a customer has, and stands in ascending order of name under
    the collation of the database. *)
Theorem fetchFilteredCustomers_one_row_per_customer :
  forall (x : Run) (db : Database) (query : string) (k : Console),
    fault x = None ->
    is_collation (collation db) ->
    exists rows,
      fetchFilteredCustomers formatCurrency x db query k = (Normal rows, k) /\
      NoDup (map customer_of rows) /\
      text_ascending (collation db) FormattedCustomersTable.name rows.
Proof.
  intros x db query k Hx Hcoll. eexists.
  split; [now apply fetchFilteredCustomers_ok|]. split.
  - rewrite map_map.
    apply (Permutation_NoDup
             (l := map fst (GROUP_BY customers.eqb fst (matching_customer_rows x db query)))).
    + eapply Permutation_trans;
        [|apply Permutation_map, Permutation_sym, ORDER_BY_perm].
      rewrite map_map.
      rewrite (map_ext fst
                 (fun g => customer_of (format_customer formatCurrency (aggregate_customer g))));
        [apply Permutation_refl|].
      intros [c rows]. symmetry. apply customer_of_aggregate.
    + unfold GROUP_BY. rewrite map_map. cbn [fst]. rewrite map_id.
      apply distinct_NoDup, customers_eqb_eq.
  - unfold text_ascending.
    apply (sorted_map (format_customer formatCurrency)
             (fun a b => collation db (CustomersTableType.name a) (CustomersTableType.name b)
                         = true)).
    + intros a b H. exact H.
    + now apply (ORDER_BY_text_asc (collation db) CustomersTableType.name).
Qed.

(** When the statement executes without fault and no row of the
    customers table is repeated, the row shown for a customer carries the
    number of that customer's invoices and the formatted sums of the
    amounts of those that are pending and of those that are paid. *)
Theorem fetchFilteredCustomers_aggregates :
  forall (x : Run) (db : Database) (query : string) (k : Console),
    fault x = None ->
    NoDup (tbl_customers db) ->
    exists rows,
      fetchFilteredCustomers formatCurrency x db query k = (Normal rows, k) /\
      forall t, In t rows ->
        FormattedCustomersTable.total_invoices t
        = COUNT (invoices_of (customer_of t) (tbl_invoices db)) /\
        FormattedCustomersTable.total_pending t
        = formatCurrency
            (Some (total_of "pending" (invoices_of (customer_of t) (tbl_invoices db)))) /\
        FormattedCustomersTable.total_paid t
        = formatCurrency
            (Some (total_of "paid" (invoices_of (customer_of t) (tbl_invoices db)))).
Proof.
  intros x db query k Hx Hnd. eexists.
  split; [now apply fetchFilteredCustomers_ok|].
  intros t Ht. apply fetchFilteredCustomers_rows in Ht as (c & Hc & ->).
  rewrite customer_of_aggregate.
  rewrite (aggregate_perm c _ _ (group_of_customer x db query c Hnd Hc)).
  rewrite aggregate_of_customer. repeat split; reflexivity.
Qed.

End CustomerRows.

Lemma fetchFilteredCustomers_one_row_per_customer_witness :
  exists rows,
    fetchFilteredCustomers formatCurrency_peso reverse_order seven_same_day "io" []
    = (Normal rows, []) /\
    NoDup (map customer_of rows) /\
    text_ascending (collation seven_same_day) FormattedCustomersTable.name rows.
Proof.
  apply (fetchFilteredCustomers_one_row_per_customer formatCurrency_peso reverse_order
           seven_same_day "io" []);
    [reflexivity | exact bytewise_is_collation].
Defined.

Lemma fetchFilteredCustomers_aggregates_witness :
  exists rows,
    fetchFilteredCustomers formatCurrency_peso reverse_order two_days "io" []
    = (Normal rows, []) /\
    forall t, In t rows ->
      FormattedCustomersTable.total_invoices t
      = COUNT (invoices_of (customer_of t) (tbl_invoices two_days)) /\
      FormattedCustomersTable.total_pending t
      = formatCurrency_peso
          (Some (total_of "pending" (invoices_of (customer_of t) (tbl_invoices two_days)))) /\
      FormattedCustomersTable.total_paid t
      = formatCurrency_peso
          (Some (total_of "paid" (invoices_of (customer_of t) (tbl_invoices two_days)))).
Proof.
  apply (fetchFilteredCustomers_aggregates formatCurrency_peso reverse_order two_days "io" []).
  - reflexivity.
  - repeat constructor; simpl; intuition discriminate.
Defined.

(** The two customers of [two_days]: the first with one invoice pending
    and one paid, the second with none. *)
Example fetchFilteredCustomers_two_days :
  fetchFilteredCustomers formatCurrency_peso stored_order two_days "io" []
  = (Normal
       [FormattedCustomersTable.mk "c-acme" "Acme" "ap@acme.io" "/customers/acme.png"
          2 "₱25.00" "₱15.00";
        FormattedCustomersTable.mk "c-bolt" "Bolt" "hi@bolt.io" "/customers/bolt.png"
          0 "₱0.00" "₱0.00"],
     []).
Proof. vm_compute. reflexivity. Qed.
